(** * ROW: storage engine of one terminal row (src/buffer/out/Row.cpp)

    A shallow embedding of [ROW] and of its operations [Reset],
    [ClearColumn], [Replace] (the "Splice" of the specification) and
    [WriteCells] (the "Bulk Writer"), followed by the properties of the
    specification stated against that embedding.

    Conventions of the embedding
    - [size_t] values are integers taken modulo 2^64 ([usize]), [uint16_t]
      values modulo 2^16 ([u16]); every place where the C++ arithmetic can
      wrap carries the wrap explicitly.
    - The two raw buffers [_chars] and [_indices] are lists; touching an
      element outside of a list is undefined behaviour in the C++ program
      and makes the embedded operation return [None].
    - [std::copy_n] on [wchar_t] pointers is the block move the MSVC
      library performs for trivially copyable elements: the whole source
      range is read, then written. *)

From Stdlib Require Import ZArith Lia.
From stdpp Require Import base option list numbers.

Local Open Scope Z_scope.

(** ** Machine integers *)

Definition usize (z : Z) : Z := z mod 2 ^ 64.
Definition u16 (z : Z) : Z := z mod 2 ^ 16.

(** A [wchar_t] code unit is carried as its integer value. *)
Abbreviation wchar_t := Z (only parsing).
Definition UNICODE_SPACE : wchar_t := 32.

(** ** Raw buffers *)

Section Buffers.
Context {A : Type}.

(** [buf[i]] *)
Definition load (buf : list A) (i : Z) : option A :=
  if decide (0 <= i) then buf !! Z.to_nat i else None.

(** The [n] elements of [buf] starting at [pos]; a count that is not
    positive reads nothing (and so cannot fault). *)
Definition read_n (buf : list A) (pos n : Z) : option (list A) :=
  if decide (n <= 0) then Some []
  else if decide (0 <= pos /\ pos + n <= Z.of_nat (length buf))
       then Some (take (Z.to_nat n) (drop (Z.to_nat pos) buf))
       else None.

(** Store [data] into [buf] from [pos] on; nothing is touched when
    [data] is empty. *)
Definition write_at (buf : list A) (pos : Z) (data : list A) : option (list A) :=
  match data with
  | [] => Some buf
  | _ =>
      if decide (0 <= pos /\ pos + Z.of_nat (length data) <= Z.of_nat (length buf))
      then Some (take (Z.to_nat pos) buf ++ data
                   ++ drop (Z.to_nat pos + length data) buf)
      else None
  end.

(** [std::copy_n(src + s, n, dst + d)] *)
Definition copy_n (src : list A) (s n : Z) (dst : list A) (d : Z) : option (list A) :=
  data ← read_n src s n; write_at dst d data.

(** [std::fill_n(dst + d, n, v)] *)
Definition fill_n (dst : list A) (d n : Z) (v : A) : option (list A) :=
  write_at dst d (replicate (Z.to_nat n) v).
End Buffers.

(** ** Data model *)

Inductive LineRendition :=
  | SingleWidth | DoubleWidth | DoubleHeightTop | DoubleHeightBottom.

(** [TextAttribute] is declared outside of Row.cpp; the row only stores
    attributes and compares them with [==], so an integer code stands for
    one attribute value. *)
Definition TextAttribute := Z.

(** The attribute run store [til::rle] is kept in its expanded form, one
    attribute per column. *)
Record ROW := mkROW {
  _chars : list wchar_t;
  _charsCapacity : Z;
  _indices : list Z;
  _indicesCount : Z;
  _attr : list TextAttribute;
  _lineRendition : LineRendition;
  _wrapForced : bool;
  _doubleBytePadded : bool
}.

Definition with_text (r : ROW) (chars : list wchar_t) (cap : Z) (idx : list Z) : ROW :=
  {| _chars := chars; _charsCapacity := cap; _indices := idx;
     _indicesCount := _indicesCount r; _attr := _attr r;
     _lineRendition := _lineRendition r; _wrapForced := _wrapForced r;
     _doubleBytePadded := _doubleBytePadded r |}.

Definition with_chars (r : ROW) (chars : list wchar_t) : ROW :=
  with_text r chars (_charsCapacity r) (_indices r).

Definition with_indices (r : ROW) (idx : list Z) : ROW :=
  with_text r (_chars r) (_charsCapacity r) idx.

Definition with_attr (r : ROW) (a : list TextAttribute) : ROW :=
  {| _chars := _chars r; _charsCapacity := _charsCapacity r;
     _indices := _indices r; _indicesCount := _indicesCount r; _attr := a;
     _lineRendition := _lineRendition r; _wrapForced := _wrapForced r;
     _doubleBytePadded := _doubleBytePadded r |}.

(** Modelled from the spec: [ROW::size()] is declared in Row.hpp; it is the
    column count of the row. *)
Definition size (r : ROW) : Z := _indicesCount r.

(** Modelled from the spec: [ROW::SetWrapForced] (Row.hpp) stores the flag. *)
Definition SetWrapForced (b : bool) (r : ROW) : ROW :=
  {| _chars := _chars r; _charsCapacity := _charsCapacity r;
     _indices := _indices r; _indicesCount := _indicesCount r;
     _attr := _attr r; _lineRendition := _lineRendition r;
     _wrapForced := b; _doubleBytePadded := _doubleBytePadded r |}.

(** Modelled from the spec: [ROW::SetDoubleBytePadded] (Row.hpp) stores the
    flag. *)
Definition SetDoubleBytePadded (b : bool) (r : ROW) : ROW :=
  {| _chars := _chars r; _charsCapacity := _charsCapacity r;
     _indices := _indices r; _indicesCount := _indicesCount r;
     _attr := _attr r; _lineRendition := _lineRendition r;
     _wrapForced := _wrapForced r; _doubleBytePadded := b |}.

(** [std::iota(_indices, _indices + _indicesCount + 1, uint16_t(0))] *)
Definition iota_indices (count : Z) : list Z :=
  u16 <$> seqZ 0 (count + 1).

(** The constructor, for a caller that supplies both buffers
    ([buffer != nullptr]); [rowWidth] is an [unsigned short]. *)
Definition ROW_new (rowWidth : Z) (fillAttribute : TextAttribute) : ROW :=
  let w := u16 rowWidth in
  {| _chars := replicate (Z.to_nat w) UNICODE_SPACE;
     _charsCapacity := w;
     _indices := iota_indices w;
     _indicesCount := w;
     _attr := replicate (Z.to_nat (Z.max 1 w)) fillAttribute;
     _lineRendition := SingleWidth;
     _wrapForced := false;
     _doubleBytePadded := false |}.

(** ** Replace (Splice) *)

(** [for (; old0 != 0 && _indices[old0 - 1] == ch0; --old0)] *)
Fixpoint scan_left (idx : list Z) (ch0 : Z) (old0 : nat) : option nat :=
  match old0 with
  | O => Some O
  | S k =>
      match idx !! k with
      | None => None
      | Some v => if decide (v = ch0) then scan_left idx ch0 k else Some old0
      end
  end.

(** [for (; (ch1 = _indices[old1]) == ch0; ++old1)], running over the
    entries from [old1] on; the result is [(old1, ch1)].  The loop has no
    bound of its own: when every remaining entry equals [ch0] it reads
    past the sentinel. *)
Fixpoint scan_right (rest : list Z) (ch0 : Z) (old1 : Z) : option (Z * Z) :=
  match rest with
  | [] => None
  | v :: rest' =>
      if decide (v = ch0) then scan_right rest' ch0 (old1 + 1) else Some (old1, v)
  end.

(** The values computed by lines 174-193. *)
Record Span := mkSpan {
  new0 : Z; new1 : Z; old0 : Z; old1 : Z; ch0 : Z; ch1 : Z
}.

Definition Replace_scan (x width : Z) (r : ROW) : option Span :=
  let n0 := Z.min x (_indicesCount r) in
  let n1 := Z.min (usize (n0 + width)) (_indicesCount r) in
  c0 ← load (_indices r) n0;
  o0 ← scan_left (_indices r) c0 (Z.to_nat n0);
  '(o1, c1) ← scan_right (drop (Z.to_nat n1) (_indices r)) c0 n1;
  Some (mkSpan n0 n1 (Z.of_nat o0) o1 c0 c1).

Definition leadingSpaces (s : Span) : Z := new0 s - old0 s.
Definition trailingSpaces (s : Span) : Z := old1 s - new1 s.
Definition insertedChars (s : Span) (chars : list wchar_t) : Z :=
  usize (Z.of_nat (length chars) + leadingSpaces s + trailingSpaces s).
Definition newRhs (s : Span) (chars : list wchar_t) : Z :=
  usize (insertedChars s chars + ch0 s).
Definition diff (s : Span) (chars : list wchar_t) : Z :=
  usize (newRhs s chars - ch1 s).

(** [for (it = &_indices[new1]; it != &_indices[_indicesCount + 1]; ++it)
      *it += diff;] *)
Definition shift_indices (idx : list Z) (from count d : Z) : option (list Z) :=
  if decide (count + 1 <= Z.of_nat (length idx)) then
    Some (take (Z.to_nat from) idx
            ++ ((fun v => u16 (v + d)) <$>
                  take (Z.to_nat (count + 1 - from)) (drop (Z.to_nat from) idx))
            ++ drop (Z.to_nat (count + 1)) idx)
  else None.

(** [::operator new[](sizeof(wchar_t) * newCapacity)]: fresh storage whose
    content is unspecified (zero stands for it); a request whose byte size
    does not fit [size_t] has no defined outcome. *)
Definition allocate (newCapacity : Z) : option (list wchar_t) :=
  if decide (newCapacity < 2 ^ 63) then Some (replicate (Z.to_nat newCapacity) 0)
  else None.

(** Lines 195-225: make room for the new text and shift the later
    offsets. *)
Definition Replace_resize (s : Span) (chars : list wchar_t) (r : ROW) : option ROW :=
  let d := diff s chars in
  if decide (d = 0) then Some r
  else
    currentLength ← load (_indices r) (_indicesCount r);
    let newLength := usize (currentLength + d) in
    r1 ← (if decide (newLength <= _charsCapacity r) then
            buf ← copy_n (_chars r) (ch1 s) (currentLength - ch1 s)
                         (_chars r) (newRhs s chars);
            Some (with_chars r buf)
          else
            let newCapacity :=
              Z.max newLength
                    (usize (_charsCapacity r + Z.shiftr (_charsCapacity r) 1)) in
            fresh ← allocate newCapacity;
            buf1 ← copy_n (_chars r) 0 (ch0 s) fresh 0;
            buf2 ← copy_n (_chars r) (ch1 s) (currentLength - ch1 s)
                          buf1 (newRhs s chars);
            Some (with_text r buf2 newCapacity (_indices r)));
    idx ← shift_indices (_indices r1) (new1 s) (_indicesCount r1) d;
    Some (with_indices r1 idx).

(** Lines 227-232: the leading spaces, the text, the trailing spaces. *)
Definition Replace_fill (s : Span) (chars : list wchar_t) (r : ROW) : option ROW :=
  b1 ← fill_n (_chars r) (ch0 s) (leadingSpaces s) UNICODE_SPACE;
  b2 ← write_at b1 (ch0 s + leadingSpaces s) chars;
  b3 ← fill_n b2 (ch0 s + leadingSpaces s + Z.of_nat (length chars))
              (trailingSpaces s) UNICODE_SPACE;
  Some (with_chars r b3).

(** Lines 234-249.  [col] is a [uint16_t] compared against [size_t]
    bounds: with [new0] or [old1] above 65535 one of the three loops
    cannot leave and runs off the index ([new1] is never above [old1]);
    below, [col] and [it] advance together from [old0], and each loop
    stores what the source stores, the column number [col] (first and
    third loop) or the column number [c] at which the second loop was
    entered.  The second loop runs only while [col < new1], so when
    [new0 + width] has wrapped and [new1] lies left of [new0] it does not
    run, and the third loop goes on from [col = new0]: in every case the
    third loop starts at the larger of [new0] and [new1]. *)
Definition Replace_reindex (s : Span) (r : ROW) : option ROW :=
  if decide (Z.max (new0 s) (old1 s) < 2 ^ 16) then
    let col := old0 s in
    let first := seqZ col (new0 s - col) in
    let c := new0 s in
    let second := replicate (Z.to_nat (new1 s - new0 s)) c in
    let col3 := Z.max (new0 s) (new1 s) in
    let third := seqZ col3 (old1 s - col3) in
    idx ← write_at (_indices r) col (first ++ second ++ third);
    Some (with_indices r idx)
  else None.

(** [void ROW::Replace(size_t x, size_t width, const std::wstring_view& chars)] *)
Definition Replace (x width : Z) (chars : list wchar_t) (r : ROW) : option ROW :=
  s ← Replace_scan x width r;
  r1 ← Replace_resize s chars r;
  r2 ← Replace_fill s chars r1;
  Replace_reindex s r2.

(** Modelled from the spec: [ROW::ClearCell] is declared in Row.hpp and its
    body is not part of Row.cpp; the column clear "delegates to Splice with
    a single-column range [and] one space code unit". *)
Definition ClearCell (column : Z) (r : ROW) : option ROW :=
  Replace column 1 [UNICODE_SPACE] r.

(** Modelled from the spec: the overload [Replace(begin, end, attribute)]
    that [WriteCells] calls is the attribute run store's
    [replace(startColumn, endColumnExclusive, value)]: it overwrites the
    attribute over that half-open column range. *)
Definition ReplaceAttr (colBegin colEnd : Z) (a : TextAttribute) (r : ROW) : ROW :=
  with_attr r
    (imap (fun i old =>
             if decide (colBegin <= Z.of_nat i < colEnd) then a else old)
          (_attr r)).

(** ** Outcomes of the public operations *)

Inductive HRESULT := E_INVALIDARG.

(** - [Ok a r]: the call returns [a] and leaves the row as [r];
    - [Throw hr r]: [THROW_HR_IF] raised [hr] when the row was [r];
    - [Undefined]: a buffer was touched out of bounds;
    - [ReadExhausted r]: the cell iterator was dereferenced while
      exhausted, with the row being [r] (what such a read yields is up to
      [OutputCellIterator], which Row.cpp only uses);
    - [OutOfFuel]: the loop did not leave within the iterations granted. *)
Inductive outcome (A : Type) :=
  | Ok (a : A) (r : ROW)
  | Throw (hr : HRESULT) (r : ROW)
  | Undefined
  | ReadExhausted (r : ROW)
  | OutOfFuel.
Arguments Ok {A} a r.
Arguments Throw {A} hr r.
Arguments Undefined {A}.
Arguments ReadExhausted {A} r.
Arguments OutOfFuel {A}.

(** ** Reset *)

(** [wmemset] over the first [_indicesCount] code units, [std::iota] over
    the index, a fresh attribute run of [uint16_t(_indicesCount)] columns,
    default flags. *)
Definition Reset (Attr : TextAttribute) (r : ROW) : outcome bool :=
  match fill_n (_chars r) 0 (_indicesCount r) UNICODE_SPACE with
  | None => Undefined
  | Some chars =>
      match write_at (_indices r) 0 (iota_indices (_indicesCount r)) with
      | None => Undefined
      | Some idx =>
          Ok true
             {| _chars := chars; _charsCapacity := _charsCapacity r;
                _indices := idx; _indicesCount := _indicesCount r;
                _attr := replicate (Z.to_nat (u16 (_indicesCount r))) Attr;
                _lineRendition := SingleWidth;
                _wrapForced := false;
                _doubleBytePadded := false |}
      end
  end.

(** ** ClearColumn *)

Definition ClearColumn (column : Z) (r : ROW) : outcome unit :=
  if decide (size r <= column) then Throw E_INVALIDARG r
  else match ClearCell column r with
       | Some r' => Ok tt r'
       | None => Undefined
       end.

(** ** WriteCells *)

Inductive TextAttributeBehavior := Stored | Current | StoredOnly.

Inductive DbcsAttribute := Single | Leading | Trailing.

Global Instance TextAttributeBehavior_eq_dec : EqDecision TextAttributeBehavior.
Proof. solve_decision. Defined.

Global Instance DbcsAttribute_eq_dec : EqDecision DbcsAttribute.
Proof. solve_decision. Defined.

(** Modelled from the spec: the value [WriteCells] hands to [Replace] as
    the [width] of a cell is its column width, "1 for narrow, 2 for wide
    glyphs, 0 for a trailing-padding placeholder" ([DbcsAttribute] itself
    is declared outside of Row.cpp). *)
Definition dbcs_width (d : DbcsAttribute) : Z :=
  match d with Single => 1 | Leading => 2 | Trailing => 0 end.

Definition IsLeading (d : DbcsAttribute) : bool :=
  match d with Leading => true | _ => false end.

Definition IsTrailing (d : DbcsAttribute) : bool :=
  match d with Trailing => true | _ => false end.

(** What [WriteCells] reads through [it->]. *)
Record OutputCellView := mkCell {
  Chars : list wchar_t;
  DbcsAttr : DbcsAttribute;
  TextAttr : TextAttribute;
  TextAttrBehavior : TextAttributeBehavior
}.

(** The iterator is the sequence of cells still to come: [bool(it)] is
    "not empty", [it->] reads the head, [++it] drops it. *)
Definition OutputCellIterator := list OutputCellView.

(** The locals of [WriteCells] that live across iterations. *)
Record Locals := mkLocals {
  it : OutputCellIterator;
  currentColor : TextAttribute;
  colorUses : Z;
  colorStarts : Z;
  currentIndex : Z
}.

(** Lines 95-112, on the cell [c] the iterator stands on. *)
Definition accumulate (c : OutputCellView) (l : Locals) (r : ROW) : Locals * ROW :=
  if decide (currentColor l = TextAttr c) then
    (mkLocals (it l) (currentColor l) (u16 (colorUses l + 1))
              (colorStarts l) (currentIndex l), r)
  else
    (mkLocals (it l) (TextAttr c) 1 (currentIndex l) (currentIndex l),
     ReplaceAttr (colorStarts l) (currentIndex l) (currentColor l) r).

Definition attr_phase (c : OutputCellView) (l : Locals) (r : ROW) : Locals * ROW :=
  if decide (TextAttrBehavior c <> Current) then accumulate c l r else (l, r).

Definition advance (l : Locals) : Locals :=
  mkLocals (tail (it l)) (currentColor l) (colorUses l) (colorStarts l)
           (currentIndex l).

(** Lines 117-152: place the text of [c] at [currentIndex]. *)
Definition place (finalColumnInRow : Z) (wrap : option bool)
    (c : OutputCellView) (l : Locals) (r : ROW) : option (Locals * ROW) :=
  let fillingLastColumn := bool_decide (currentIndex l = finalColumnInRow) in
  '(l1, r1) ←
     (if bool_decide (currentIndex l = 0) && IsTrailing (DbcsAttr c) then
        r' ← ClearCell (currentIndex l) r; Some (l, r')
      else if fillingLastColumn && IsLeading (DbcsAttr c) then
        r' ← ClearCell (currentIndex l) r; Some (l, SetDoubleBytePadded true r')
      else
        r' ← Replace (currentIndex l) (dbcs_width (DbcsAttr c)) (Chars c) r;
        Some (advance l, r'));
  match wrap with
  | Some w => if fillingLastColumn then Some (l1, SetWrapForced w r1)
              else Some (l1, r1)
  | None => Some (l1, r1)
  end.

Definition text_phase (finalColumnInRow : Z) (wrap : option bool)
    (c : OutputCellView) (l : Locals) (r : ROW) : option (Locals * ROW) :=
  if decide (TextAttrBehavior c <> StoredOnly) then place finalColumnInRow wrap c l r
  else Some (advance l, r).

Definition next_column (l : Locals) : Locals :=
  mkLocals (it l) (currentColor l) (colorUses l) (colorStarts l)
           (u16 (currentIndex l + 1)).

(** One turn of the loop body, lines 93-160. *)
Definition body (finalColumnInRow : Z) (wrap : option bool)
    (c : OutputCellView) (l : Locals) (r : ROW) : option (Locals * ROW) :=
  let '(l1, r1) := attr_phase c l r in
  '(l2, r2) ← text_phase finalColumnInRow wrap c l1 r1;
  Some (next_column l2, r2).

(** [while (it && currentIndex <= finalColumnInRow) { ... }] *)
Fixpoint WriteCells_loop (fuel : nat) (finalColumnInRow : Z) (wrap : option bool)
    (l : Locals) (r : ROW) : outcome Locals :=
  match it l with
  | [] => Ok l r
  | c :: _ =>
      if decide (currentIndex l <= finalColumnInRow) then
        match fuel with
        | O => OutOfFuel
        | S fuel' =>
            match body finalColumnInRow wrap c l r with
            | None => Undefined
            | Some (l', r') => WriteCells_loop fuel' finalColumnInRow wrap l' r'
            end
        end
      else Ok l r
  end.

(** Lines 163-167. *)
Definition commit (l : Locals) (r : ROW) : ROW :=
  if decide (colorUses l <> 0)
  then ReplaceAttr (colorStarts l) (currentIndex l) (currentColor l) r
  else r.

Definition finalColumn (limitRight : option Z) (r : ROW) : Z :=
  default (usize (size r - 1)) limitRight.

(** [OutputCellIterator ROW::WriteCells(it, index, wrap, limitRight)].
    The column counter is a [uint16_t] that grows by one per turn, so a
    row of at most 65535 columns is done within [size()] turns; that is
    the fuel granted. *)
Definition WriteCells (cells : OutputCellIterator) (index : Z)
    (wrap : option bool) (limitRight : option Z) (r : ROW)
    : outcome OutputCellIterator :=
  if decide (size r <= index) then Throw E_INVALIDARG r
  else if decide (size r <= default 0 limitRight) then Throw E_INVALIDARG r
  else
    let finalColumnInRow := finalColumn limitRight r in
    match cells with
    | [] => ReadExhausted r
    | first :: _ =>
        let l0 := mkLocals cells (TextAttr first) 0 (u16 index) (u16 index) in
        match WriteCells_loop (Z.to_nat (size r)) finalColumnInRow wrap l0 r with
        | Ok l r' => Ok (it l) (commit l r')
        | Throw hr r' => Throw hr r'
        | Undefined => Undefined
        | ReadExhausted r' => ReadExhausted r'
        | OutOfFuel => OutOfFuel
        end
    end.

(** The states the loop goes through: [WriteCells_turns final wrap l r l' r']
    when the loop, entered with the locals [l] on the row [r], comes to
    test its condition with the locals [l'] on the row [r'] after some
    number of complete turns. *)
Inductive WriteCells_turns (finalColumnInRow : Z) (wrap : option bool)
    : Locals -> ROW -> Locals -> ROW -> Prop :=
  | turns_none l r : WriteCells_turns finalColumnInRow wrap l r l r
  | turns_more l r c rest l1 r1 l' r' :
      it l = c :: rest ->
      currentIndex l <= finalColumnInRow ->
      body finalColumnInRow wrap c l r = Some (l1, r1) ->
      WriteCells_turns finalColumnInRow wrap l1 r1 l' r' ->
      WriteCells_turns finalColumnInRow wrap l r l' r'.

(** ** Notions used by the statements, and sample rows *)

(** The fields that are neither the text store nor the column index. *)
Definition same_frame (r r' : ROW) : Prop :=
  _indicesCount r' = _indicesCount r /\
  _attr r' = _attr r /\
  _lineRendition r' = _lineRendition r /\
  _wrapForced r' = _wrapForced r /\
  _doubleBytePadded r' = _doubleBytePadded r.

Definition letter_a : wchar_t := 97.
Definition letter_b : wchar_t := 98.
Definition letter_c : wchar_t := 99.
Definition letter_x : wchar_t := 120.
Definition letter_y : wchar_t := 121.
Definition letter_z : wchar_t := 122.
Definition letter_W : wchar_t := 87.

(** A three-column row whose column 0 holds the two code units "ab":
    the state [Replace 0 1 "ab"] leaves a fresh row in. *)
Definition row_ab : ROW :=
  {| _chars := [letter_a; letter_b; 32; 32]; _charsCapacity := 4;
     _indices := [0; 2; 3; 4]; _indicesCount := 3; _attr := [0; 0; 0];
     _lineRendition := SingleWidth; _wrapForced := false;
     _doubleBytePadded := false |}.

(** The column span and the text that the placement step hands to Replace
    for the cell [c]: a single space over one column in the two padding
    cases, the cell's own width and text otherwise. *)
Definition placed (finalColumnInRow : Z) (c : OutputCellView) (l : Locals)
    : Z * list wchar_t :=
  if (bool_decide (currentIndex l = 0) && IsTrailing (DbcsAttr c))
     || (bool_decide (currentIndex l = finalColumnInRow) && IsLeading (DbcsAttr c))
  then (1, [UNICODE_SPACE])
  else (dbcs_width (DbcsAttr c), Chars c).

(** A wide glyph offered as a leading cell. *)
Definition wide_cell : OutputCellView := mkCell [20320] Leading 7 Stored.

(** A narrow glyph "a" offered with the attribute 7. *)
Definition narrow_cell : OutputCellView := mkCell [letter_a] Single 7 Stored.

(** A row with a wide glyph "W" over columns 0 and 1: the state
    [Replace 0 2 "W"] leaves a fresh three-column row in. *)
Definition row_wide : ROW :=
  {| _chars := [letter_W; 32; 32]; _charsCapacity := 3;
     _indices := [0; 0; 1; 2]; _indicesCount := 3; _attr := [0; 0; 0];
     _lineRendition := SingleWidth; _wrapForced := false;
     _doubleBytePadded := false |}.

(** The used length of the text store: the sentinel entry of the index. *)
Definition currentLength (r : ROW) : Z :=
  default 0 (load (_indices r) (_indicesCount r)).

(** The invariants of the data model: the index has one entry per column
    plus the sentinel, its entries are non-negative and non-decreasing, the
    text buffer has [_charsCapacity] code units and the used length fits
    into it. *)
Record row_ok (r : ROW) : Prop := {
  ok_count : 0 <= _indicesCount r < 2 ^ 16;
  ok_indices_length : Z.of_nat (length (_indices r)) = _indicesCount r + 1;
  ok_nonneg : forall (i : nat) v, _indices r !! i = Some v -> 0 <= v;
  ok_monotone : forall (i j : nat) v w,
      (i <= j)%nat -> _indices r !! i = Some v -> _indices r !! j = Some w -> v <= w;
  ok_chars_length : Z.of_nat (length (_chars r)) = _charsCapacity r;
  ok_used : currentLength r <= _charsCapacity r;
  ok_capacity : _charsCapacity r < 2 ^ 62
}.

(** The net length change of a Replace as an integer: [diff] before the
    [size_t] wrap. *)
Definition lengthDelta (s : Span) (chars : list wchar_t) : Z :=
  Z.of_nat (length chars) + leadingSpaces s + trailingSpaces s + ch0 s - ch1 s.

(** A three-column row whose columns 0 and 1 hold one glyph of two code
    units "ab": the state [Replace 0 2 "ab"] leaves a fresh row in. *)
Definition row_wide_ab : ROW :=
  {| _chars := [letter_a; letter_b; 32]; _charsCapacity := 3;
     _indices := [0; 0; 2; 3]; _indicesCount := 3; _attr := [0; 0; 0];
     _lineRendition := SingleWidth; _wrapForced := false;
     _doubleBytePadded := false |}.

(** The five-column row whose index three splices have left as
    0 0 1 1 4 3 (text "abx", two spare code units). *)
Definition row_broken : ROW :=
  {| _chars := [letter_a; letter_b; letter_x; 32; 32]; _charsCapacity := 5;
     _indices := [0; 0; 1; 1; 4; 3]; _indicesCount := 5; _attr := [0; 0; 0; 0; 0];
     _lineRendition := SingleWidth; _wrapForced := false;
     _doubleBytePadded := false |}.

(** A three-column row with the narrow "a" in column 0 and the wide "W"
    over columns 1 and 2: the state [Replace 0 1 "a"] followed by
    [Replace 1 2 "W"] leaves a fresh row in. *)
Definition row_a_wide : ROW :=
  {| _chars := [letter_a; letter_W; 32]; _charsCapacity := 3;
     _indices := [0; 1; 1; 2]; _indicesCount := 3; _attr := [0; 0; 0];
     _lineRendition := SingleWidth; _wrapForced := false;
     _doubleBytePadded := false |}.

(** A three-column row that reads "abc", one code unit per column. *)
Definition row_abc : ROW :=
  {| _chars := [letter_a; letter_b; letter_c]; _charsCapacity := 3;
     _indices := [0; 1; 2; 3]; _indicesCount := 3; _attr := [0; 0; 0];
     _lineRendition := SingleWidth; _wrapForced := false;
     _doubleBytePadded := false |}.

(** * Properties *)

(** ** Facts about the raw buffer operations *)

Section BufferFacts.
Context {A : Type}.
Implicit Types (buf data : list A).

Lemma write_at_unfold buf pos data :
  write_at buf pos data =
    if decide (data = []) then Some buf
    else if decide (0 <= pos /\ pos + Z.of_nat (length data) <= Z.of_nat (length buf))
         then Some (take (Z.to_nat pos) buf ++ data
                      ++ drop (Z.to_nat pos + length data) buf)
         else None.
Proof. destruct data; reflexivity. Qed.

Lemma write_at_length buf pos data buf' :
  write_at buf pos data = Some buf' -> length buf' = length buf.
Proof.
  rewrite write_at_unfold. case_decide; [congruence|].
  case_decide as Hb; [|congruence]. intros Hw. apply (inj Some) in Hw. subst buf'.
  rewrite !length_app, length_take, length_drop. lia.
Qed.

Lemma write_at_lookup buf pos data buf' (i : nat) :
  write_at buf pos data = Some buf' ->
  buf' !! i =
    if decide (Z.to_nat pos <= i < Z.to_nat pos + length data)%nat
    then data !! (i - Z.to_nat pos)%nat else buf !! i.
Proof.
  rewrite write_at_unfold. case_decide as Hd.
  - intros Hw. apply (inj Some) in Hw. subst.
    case_decide; [simpl in *; lia | done].
  - case_decide as Hb; [|congruence]. intros Hw. apply (inj Some) in Hw. subst buf'.
    assert (Hlt : length (take (Z.to_nat pos) buf) = Z.to_nat pos)
      by (rewrite length_take; lia).
    case_decide as Hi.
    + rewrite lookup_app_r by lia. rewrite Hlt.
      rewrite lookup_app_l by lia. done.
    + destruct (decide (i < Z.to_nat pos)%nat).
      * rewrite lookup_app_l by lia. by rewrite lookup_take_lt.
      * rewrite lookup_app_r by lia. rewrite Hlt.
        rewrite lookup_app_r by lia. rewrite lookup_drop. f_equal. lia.
Qed.

Lemma write_at_bounds buf pos data buf' :
  write_at buf pos data = Some buf' -> data <> [] ->
  0 <= pos /\ pos + Z.of_nat (length data) <= Z.of_nat (length buf).
Proof.
  rewrite write_at_unfold. case_decide; [done|].
  case_decide; [done | congruence].
Qed.

Lemma write_at_ok buf pos data :
  0 <= pos -> pos + Z.of_nat (length data) <= Z.of_nat (length buf) ->
  is_Some (write_at buf pos data).
Proof.
  intros. unfold write_at. destruct data; [eauto|].
  case_decide; [eauto | lia].
Qed.

Lemma read_n_length buf pos n data :
  read_n buf pos n = Some data -> Z.of_nat (length data) = Z.max 0 n.
Proof.
  unfold read_n. case_decide; [intros [= <-]; simpl; lia|].
  case_decide; [|congruence]. intros [= <-].
  rewrite length_take, length_drop. lia.
Qed.

Lemma read_n_lookup buf pos n data (k : nat) :
  read_n buf pos n = Some data -> (Z.of_nat k < n) ->
  data !! k = buf !! (Z.to_nat pos + k)%nat.
Proof.
  unfold read_n. case_decide; [lia|].
  case_decide; [|congruence]. intros [= <-] Hk.
  rewrite lookup_take_lt by lia. by rewrite lookup_drop.
Qed.

Lemma read_n_ok buf pos n :
  0 <= pos -> pos + n <= Z.of_nat (length buf) -> is_Some (read_n buf pos n).
Proof.
  intros. unfold read_n. case_decide; [eauto|]. case_decide; [eauto | lia].
Qed.

(** What was stored can be read back. *)
Lemma write_at_read_back buf pos data buf' :
  write_at buf pos data = Some buf' ->
  read_n buf' pos (Z.of_nat (length data)) = Some data.
Proof.
  intros Hw. pose proof (write_at_length _ _ _ _ Hw) as Hlen.
  unfold read_n. case_decide as Hn.
  { destruct data; [done | simpl in Hn; lia]. }
  assert (Hb : 0 <= pos /\ pos + Z.of_nat (length data) <= Z.of_nat (length buf)).
  { apply (write_at_bounds _ _ _ _ Hw). intros ->. simpl in Hn. lia. }
  rewrite decide_True by lia. f_equal.
  apply list_eq. intros i.
  destruct (decide (i < length data)%nat).
  - rewrite lookup_take_lt by lia. rewrite lookup_drop.
    rewrite (write_at_lookup _ _ _ _ _ Hw). rewrite decide_True by lia.
    f_equal. lia.
  - rewrite lookup_take_ge by lia. symmetry. apply lookup_ge_None_2. lia.
Qed.

(** A later store outside of a range leaves what is read there. *)
Lemma write_at_read_other buf pos data buf' p n :
  write_at buf pos data = Some buf' ->
  (p + n <= pos \/ pos + Z.of_nat (length data) <= p) ->
  read_n buf' p n = read_n buf p n.
Proof.
  intros Hw Hdisj. pose proof (write_at_length _ _ _ _ Hw) as Hlen.
  unfold read_n. case_decide; [done|]. rewrite Hlen.
  case_decide; [|done]. f_equal. apply list_eq. intros i.
  destruct (decide (i < Z.to_nat n)%nat).
  - rewrite !lookup_take_lt by lia. rewrite !lookup_drop.
    rewrite (write_at_lookup _ _ _ _ _ Hw). rewrite decide_False; [done|].
    destruct (decide (data = [])) as [->|Hne]; [simpl; lia|].
    pose proof (write_at_bounds _ _ _ _ Hw Hne). lia.
  - by rewrite !lookup_take_ge by lia.
Qed.
End BufferFacts.

(** ** What Replace leaves alone *)

Lemma same_frame_refl r : same_frame r r.
Proof. by repeat split. Qed.

Lemma same_frame_trans r1 r2 r3 :
  same_frame r1 r2 -> same_frame r2 r3 -> same_frame r1 r3.
Proof. unfold same_frame. intuition congruence. Qed.

Lemma same_frame_with_text r chars cap idx : same_frame r (with_text r chars cap idx).
Proof. by repeat split. Qed.

Lemma Replace_resize_frame s chars r r' :
  Replace_resize s chars r = Some r' -> same_frame r r'.
Proof.
  unfold Replace_resize. case_decide as Hd; [intros [= <-]; apply same_frame_refl|].
  intros H. apply bind_Some in H as (currentLength & _ & H).
  apply bind_Some in H as (r1 & Hr1 & H).
  apply bind_Some in H as (idx & _ & H). injection H as <-.
  eapply same_frame_trans; [|apply same_frame_with_text].
  case_decide as Hfit.
  - apply bind_Some in Hr1 as (buf & _ & [= <-]). apply same_frame_with_text.
  - apply bind_Some in Hr1 as (fresh & _ & Hr1).
    apply bind_Some in Hr1 as (buf1 & _ & Hr1).
    apply bind_Some in Hr1 as (buf2 & _ & [= <-]). apply same_frame_with_text.
Qed.

Lemma Replace_fill_frame s chars r r' :
  Replace_fill s chars r = Some r' -> same_frame r r'.
Proof.
  unfold Replace_fill. intros H.
  apply bind_Some in H as (b1 & _ & H). apply bind_Some in H as (b2 & _ & H).
  apply bind_Some in H as (b3 & _ & [= <-]). apply same_frame_with_text.
Qed.

Lemma Replace_reindex_frame s r r' :
  Replace_reindex s r = Some r' -> same_frame r r'.
Proof.
  unfold Replace_reindex. case_decide as Hd; [|done]. intros H.
  apply bind_Some in H as (idx & _ & [= <-]). apply same_frame_with_text.
Qed.

Lemma Replace_phases x width chars r r' :
  Replace x width chars r = Some r' ->
  exists s r1 r2,
    Replace_scan x width r = Some s /\
    Replace_resize s chars r = Some r1 /\
    Replace_fill s chars r1 = Some r2 /\
    Replace_reindex s r2 = Some r'.
Proof.
  unfold Replace. intros H.
  apply bind_Some in H as (s & Hs & H). apply bind_Some in H as (r1 & Hr1 & H).
  apply bind_Some in H as (r2 & Hr2 & H). eauto 10.
Qed.

Lemma Replace_same_frame x width chars r r' :
  Replace x width chars r = Some r' -> same_frame r r'.
Proof.
  intros (s & r1 & r2 & _ & H1 & H2 & H3)%Replace_phases.
  apply Replace_resize_frame in H1. apply Replace_fill_frame in H2.
  apply Replace_reindex_frame in H3.
  exact (same_frame_trans _ _ _ (same_frame_trans _ _ _ H1 H2) H3).
Qed.

Lemma row_ab_reachable :
  Replace 0 1 [letter_a; letter_b] (ROW_new 3 0) = Some row_ab.
Proof. vm_compute. reflexivity. Qed.

(** C10: every Replace (Splice) call that returns leaves the wrapForced
    flag, the doubleBytePadded flag, the lineRendition value and the
    attribute run store as they were (and the column count with them);
    only the text store, its capacity and the column index can differ. *)
Theorem C10_Replace_frame x width chars r r' :
  Replace x width chars r = Some r' ->
  _wrapForced r' = _wrapForced r /\
  _doubleBytePadded r' = _doubleBytePadded r /\
  _lineRendition r' = _lineRendition r /\
  _attr r' = _attr r /\
  _indicesCount r' = _indicesCount r.
Proof.
  intros H. destruct (Replace_same_frame _ _ _ _ _ H) as (?&?&?&?&?). done.
Qed.

Lemma C10_Replace_frame_witness :
  Replace 0 1 [letter_a; letter_b] (ROW_new 3 0) = Some row_ab /\
  (_wrapForced row_ab = _wrapForced (ROW_new 3 0) /\
   _doubleBytePadded row_ab = _doubleBytePadded (ROW_new 3 0) /\
   _lineRendition row_ab = _lineRendition (ROW_new 3 0) /\
   _attr row_ab = _attr (ROW_new 3 0) /\
   _indicesCount row_ab = _indicesCount (ROW_new 3 0)).
Proof.
  split; [vm_compute; reflexivity|].
  apply (C10_Replace_frame 0 1 [letter_a; letter_b]). vm_compute. reflexivity.
Defined.

(** ** The index rewrite of Replace, on sample rows *)

(** C1: on the row whose column 0 holds "ab" (offsets 0, 2, 3, sentinel 4),
    [Replace 1 1 "c"] finds ch0 = 2 and leadingSpaces = 0 and stores "c" at
    text offset 2, but the index entry it writes for column 1 is the column
    number 1, not the offset ch0 + leadingSpaces = 2. *)
Theorem C1_reindex_stores_column_number :
  exists s r',
    Replace_scan 1 1 row_ab = Some s /\
    Replace 1 1 [letter_c] row_ab = Some r' /\
    new0 s = 1 /\ new1 s = 2 /\ old0 s = 1 /\ old1 s = 2 /\
    ch0 s + leadingSpaces s = 2 /\
    read_n (_chars r') 2 1 = Some [letter_c] /\
    load (_indices r') (new0 s) = Some 1.
Proof. do 2 eexists. vm_compute. repeat split; reflexivity. Qed.

(** C2: three splices of one-code-unit glyphs of width 2, 2 and 1 on a
    fresh row of five columns leave the index 0 0 1 1 4 3: the entry of
    column 4 exceeds the sentinel that follows it. *)
Theorem C2_index_not_monotone :
  exists r',
    (r1 ← Replace 2 2 [letter_b] (ROW_new 5 0);
     r2 ← Replace 0 2 [letter_a] r1;
     Replace 4 1 [letter_x] r2) = Some r' /\
    _indices r' = [0; 0; 1; 1; 4; 3] /\
    load (_indices r') 4 = Some 4 /\
    load (_indices r') (_indicesCount r') = Some 3 /\
    ~ (4 <= 3).
Proof.
  eexists. split; [vm_compute; reflexivity|].
  repeat split; try (vm_compute; reflexivity). lia.
Qed.

(** C9: on the row whose column 0 holds "ab", [Replace 1 1 "c"] applied
    once leaves text "abc " and index 0 1 3 4; applied a second time it
    leaves text "ac  " and index 0 1 2 3. *)
Theorem C9_Replace_twice_differs :
  exists once twice,
    Replace 1 1 [letter_c] row_ab = Some once /\
    Replace 1 1 [letter_c] once = Some twice /\
    _chars once = [letter_a; letter_b; letter_c; 32] /\
    _indices once = [0; 1; 3; 4] /\
    _chars twice = [letter_a; letter_c; 32; 32] /\
    _indices twice = [0; 1; 2; 3] /\
    _chars twice <> _chars once /\
    _indices twice <> _indices once.
Proof.
  do 2 eexists.
  split; [vm_compute; reflexivity|].
  split; [vm_compute; reflexivity|].
  vm_compute. repeat split; (reflexivity || discriminate).
Qed.

(** ** WriteCells on sample rows *)

(** C5: a [Stored] cell followed by a [Current] cell, written from column 0
    of a fresh three-column row filled with attribute 0: the run committed
    after the loop spans both columns, so column 1, where the [Current]
    cell was consumed, changes from attribute 0 to attribute 7. *)
Theorem C5_current_cell_attribute_overwritten :
  exists r',
    WriteCells [mkCell [letter_a] Single 7 Stored;
                mkCell [letter_b] Single 7 Current] 0 None None (ROW_new 3 0)
      = Ok [] r' /\
    _attr (ROW_new 3 0) !! 1%nat = Some 0 /\
    _attr r' !! 1%nat = Some 7.
Proof. eexists. vm_compute. repeat split; reflexivity. Qed.

(** ** Argument validation *)

Lemma WriteCells_loop_no_throw fuel final wrap l r hr r' :
  WriteCells_loop fuel final wrap l r <> Throw hr r'.
Proof.
  revert l r. induction fuel as [|fuel IH]; intros l r; simpl.
  - destruct (it l); [done|]. case_decide; done.
  - destruct (it l); [done|]. case_decide; [|done].
    destruct (body final wrap o l r) as [[l1 r1]|]; [apply IH | done].
Qed.

(** C7: [ClearColumn] raises the invalid-argument failure exactly when
    column >= columnCount; [WriteCells] raises it when startColumn >=
    columnCount or when a supplied rightLimit >= columnCount (and for no
    other reason); whenever one of them raises, the row it raises with is
    the row it was called with. *)
Theorem C7_invalid_argument :
  (forall column r,
      ClearColumn column r = Throw E_INVALIDARG r <-> size r <= column) /\
  (forall column r hr r',
      ClearColumn column r = Throw hr r' -> r' = r /\ size r <= column) /\
  (forall cells index wrap limitRight r,
      (size r <= index \/ exists l, limitRight = Some l /\ size r <= l) ->
      WriteCells cells index wrap limitRight r = Throw E_INVALIDARG r) /\
  (forall cells index wrap limitRight r hr r',
      WriteCells cells index wrap limitRight r = Throw hr r' ->
      r' = r /\ (size r <= index \/ size r <= default 0 limitRight)).
Proof.
  split; [|split; [|split]].
  - intros column r. unfold ClearColumn. case_decide; [done|].
    split; [|lia]. destruct (ClearCell column r); done.
  - intros column r hr r'. unfold ClearColumn. case_decide.
    + by intros [= <-].
    + destruct (ClearCell column r); done.
  - intros cells index wrap limitRight r Hbad. unfold WriteCells.
    case_decide; [done|]. case_decide; [done|].
    destruct Hbad as [?|(l & -> & ?)]; [lia | simpl in *; lia].
  - intros cells index wrap limitRight r hr r'. unfold WriteCells.
    case_decide; [intros [= <-]; auto|].
    case_decide; [intros [= <-]; auto|].
    destruct cells as [|first rest]; [done|].
    destruct (WriteCells_loop _ _ _ _ _) eqn:Hloop; try done.
    by apply WriteCells_loop_no_throw in Hloop.
Qed.

Lemma C7_invalid_argument_witness :
  ClearColumn 3 (ROW_new 3 0) = Throw E_INVALIDARG (ROW_new 3 0) /\
  WriteCells [mkCell [letter_a] Single 7 Stored] 0 None (Some 3) (ROW_new 3 0)
    = Throw E_INVALIDARG (ROW_new 3 0).
Proof.
  destruct C7_invalid_argument as (Hclear & _ & Hwrite & _). split.
  - apply Hclear. vm_compute. discriminate.
  - apply Hwrite. right. exists 3. split; [reflexivity|]. vm_compute. discriminate.
Defined.

(** ** Where Replace puts the text *)

(** The scan only looks at the column index. *)
Lemma Replace_scan_indices x width r r' :
  _indices r' = _indices r -> _indicesCount r' = _indicesCount r ->
  Replace_scan x width r' = Replace_scan x width r.
Proof. unfold Replace_scan. by intros -> ->. Qed.

Lemma Replace_reindex_chars s r r' :
  Replace_reindex s r = Some r' ->
  _chars r' = _chars r /\ _charsCapacity r' = _charsCapacity r.
Proof.
  unfold Replace_reindex. case_decide as Hd; [|done]. intros H.
  apply bind_Some in H as (idx & _ & [= <-]). done.
Qed.

(** After a Replace that returns, the text handed in sits in the text store
    right behind the leading spaces, at offset ch0 + leadingSpaces. *)
Lemma Replace_stores_text x width chars r r' :
  Replace x width chars r = Some r' ->
  exists s,
    Replace_scan x width r = Some s /\
    read_n (_chars r') (ch0 s + leadingSpaces s) (Z.of_nat (length chars))
      = Some chars.
Proof.
  intros (s & r1 & r2 & Hs & _ & Hfill & Hre)%Replace_phases.
  exists s. split; [done|].
  apply Replace_reindex_chars in Hre as [-> _].
  unfold Replace_fill in Hfill.
  apply bind_Some in Hfill as (b1 & _ & Hfill).
  apply bind_Some in Hfill as (b2 & Hb2 & Hfill).
  apply bind_Some in Hfill as (b3 & Hb3 & [= <-]). simpl.
  unfold fill_n in Hb3.
  rewrite (write_at_read_other b2 _ _ b3 (ch0 s + leadingSpaces s)
             (Z.of_nat (length chars)) Hb3) by lia.
  exact (write_at_read_back _ _ _ _ Hb2).
Qed.

(** ** One turn of the WriteCells loop *)

Lemma attr_phase_text c l r :
  let r1 := (attr_phase c l r).2 in
  _chars r1 = _chars r /\ _charsCapacity r1 = _charsCapacity r /\
  _indices r1 = _indices r /\ _indicesCount r1 = _indicesCount r /\
  _wrapForced r1 = _wrapForced r /\ _doubleBytePadded r1 = _doubleBytePadded r /\
  _lineRendition r1 = _lineRendition r.
Proof.
  unfold attr_phase, accumulate. repeat case_decide; simpl; done.
Qed.

Lemma attr_phase_locals c l r :
  let l1 := (attr_phase c l r).1 in
  it l1 = it l /\ currentIndex l1 = currentIndex l.
Proof.
  unfold attr_phase, accumulate. repeat case_decide; simpl; done.
Qed.

Lemma place_text final wrap c l r l' r' :
  place final wrap c l r = Some (l', r') ->
  exists s,
    Replace_scan (currentIndex l) (placed final c l).1 r = Some s /\
    read_n (_chars r') (ch0 s + leadingSpaces s)
           (Z.of_nat (length (placed final c l).2))
      = Some (placed final c l).2.
Proof.
  unfold place, placed, ClearCell. intros H.
  apply bind_Some in H as ([l1 r1] & H1 & H).
  assert (Hchars : _chars r' = _chars r1).
  { destruct wrap as [w|]; [case_bool_decide|]; by injection H as <- <-. }
  rewrite Hchars. clear H Hchars.
  destruct (bool_decide (currentIndex l = 0) && IsTrailing (DbcsAttr c)); simpl.
  - apply bind_Some in H1 as (r2 & H2 & [= <- <-]).
    exact (Replace_stores_text _ _ _ _ _ H2).
  - destruct (bool_decide (currentIndex l = final) && IsLeading (DbcsAttr c)); simpl.
    + apply bind_Some in H1 as (r2 & H2 & [= <- <-]).
      exact (Replace_stores_text _ _ _ _ _ H2).
    + apply bind_Some in H1 as (r2 & H2 & [= <- <-]).
      exact (Replace_stores_text _ _ _ _ _ H2).
Qed.

(** C3, as the code has it: in one turn of the loop on the cell [c],
    the attribute accumulation/commit step runs (the pair of the pending
    colour and its use count changes) if and only if the mode of [c] is
    not [Current]; a [Current] cell leaves the attribute store and the
    pending run alone; the text placement step runs when the mode is not
    [StoredOnly], and then the text store holds the placed text at the
    offset ch0 + leadingSpaces of the Replace it went through; a
    [StoredOnly] cell leaves text store, index and flags alone and
    advances the iterator. *)
Theorem C3_loop_body_phases final wrap c l r l' r' :
  0 <= colorUses l < 2 ^ 16 ->
  body final wrap c l r = Some (l', r') ->
  ((currentColor l', colorUses l') <> (currentColor l, colorUses l)
     <-> TextAttrBehavior c <> Current) /\
  (TextAttrBehavior c = Current ->
     _attr r' = _attr r /\ colorStarts l' = colorStarts l) /\
  (TextAttrBehavior c <> StoredOnly ->
     exists s,
       Replace_scan (currentIndex l) (placed final c l).1 r = Some s /\
       read_n (_chars r') (ch0 s + leadingSpaces s)
              (Z.of_nat (length (placed final c l).2))
         = Some (placed final c l).2) /\
  (TextAttrBehavior c = StoredOnly ->
     _chars r' = _chars r /\ _charsCapacity r' = _charsCapacity r /\
     _indices r' = _indices r /\ _wrapForced r' = _wrapForced r /\
     _doubleBytePadded r' = _doubleBytePadded r /\ it l' = tail (it l)).
Proof.
  intros Huses Hbody. unfold body in Hbody.
  destruct (attr_phase c l r) as [l1 r1] eqn:Hattr.
  apply bind_Some in Hbody as ([l2 r2] & Htext & [= <- <-]).
  pose proof (attr_phase_text c l r) as Hframe.
  pose proof (attr_phase_locals c l r) as Hloc.
  rewrite Hattr in Hframe, Hloc. simpl in Hframe, Hloc.
  destruct Hframe as (Hc & Hcap & Hi & Hn & Hw & Hp & _).
  destruct Hloc as [Hit Hci].
  assert (Hkeep : currentColor l2 = currentColor l1 /\ colorUses l2 = colorUses l1
                  /\ colorStarts l2 = colorStarts l1 /\ _attr r2 = _attr r1).
  { unfold text_phase in Htext. case_decide as Hm.
    - unfold place in Htext. apply bind_Some in Htext as ([l3 r3] & H3 & Htext).
      assert (l2 = l3 /\ _attr r2 = _attr r3) as [-> ->].
      { destruct wrap as [w|]; [case_bool_decide|]; by injection Htext as <- <-. }
      clear Htext. unfold ClearCell in H3.
      repeat match type of H3 with
             | (if ?b then _ else _) = _ => destruct b
             end;
        apply bind_Some in H3 as (r4 & H4 & [= <- <-]);
        apply Replace_same_frame in H4 as (_ & Ha & _); simpl; rewrite ?Ha; done.
    - by injection Htext as <- <-. }
  destruct Hkeep as (Hcol & Hus & Hst & Hat). simpl.
  rewrite Hcol, Hus, Hst, Hat. clear Hcol Hus Hst Hat.
  split; [|split; [|split]].
  - unfold attr_phase in Hattr. case_decide as Hm.
    + split; [done|]. intros _. unfold accumulate in Hattr.
      case_decide as Hsame; injection Hattr as <- <-; simpl.
      * intros [= Heq]. unfold u16 in Heq.
        change (2 ^ 16) with 65536 in *. Z.to_euclidean_division_equations. lia.
      * intros [= Heq _]. congruence.
    + injection Hattr as <- <-. split; [done|]. intros Hne. by destruct Hm.
  - intros Hm. unfold attr_phase in Hattr. rewrite decide_False in Hattr by tauto.
    by injection Hattr as <- <-.
  - intros Hm. unfold text_phase in Htext. rewrite decide_True in Htext by done.
    apply place_text in Htext as (s & Hs & Hread).
    assert (Hpl : placed final c l1 = placed final c l)
      by (unfold placed; by rewrite Hci).
    rewrite Hpl, Hci in Hs. rewrite Hpl in Hread.
    exists s. split; [|done].
    rewrite <- Hs. symmetry. by apply Replace_scan_indices.
  - intros Hm. unfold text_phase in Htext. rewrite decide_False in Htext by tauto.
    injection Htext as <- <-. simpl. rewrite Hit. done.
Qed.

Lemma C3_loop_body_phases_witness :
  let c := mkCell [letter_x] Single 7 StoredOnly in
  let l := mkLocals [c] 7 0 0 0 in
  let l' := mkLocals [] 7 1 0 1 in
  (0 <= colorUses l < 2 ^ 16) /\
  body 1 None c l (ROW_new 2 0) = Some (l', ROW_new 2 0) /\
  ((currentColor l', colorUses l') <> (currentColor l, colorUses l)
     <-> TextAttrBehavior c <> Current).
Proof.
  intros c l l'.
  assert (Hu : 0 <= colorUses l < 2 ^ 16)
    by (change (colorUses l) with 0; change (2 ^ 16) with 65536; lia).
  assert (Hb : body 1 None c l (ROW_new 2 0) = Some (l', ROW_new 2 0))
    by (vm_compute; reflexivity).
  split; [exact Hu|]. split; [exact Hb|].
  exact (proj1 (C3_loop_body_phases 1 None c l (ROW_new 2 0) l' (ROW_new 2 0) Hu Hb)).
Defined.

(** C3, as the specification states it, fails on both modes it names: a
    [StoredOnly] cell written at column 0 of a fresh two-column row changes
    the attribute of that column (0 becomes 7) and leaves the text alone,
    and a [Current] cell written there stores its text and leaves the
    attributes alone. *)
Lemma C3_modes_counterexample :
  let stored_only := mkCell [letter_x] Single 7 StoredOnly in
  let current := mkCell [letter_x] Single 7 Current in
  exists r1 r2,
    WriteCells [stored_only] 0 None None (ROW_new 2 0) = Ok [] r1 /\
    _attr (ROW_new 2 0) !! 0%nat = Some 0 /\
    _attr r1 !! 0%nat = Some 7 /\
    _chars r1 = _chars (ROW_new 2 0) /\
    WriteCells [current] 0 None None (ROW_new 2 0) = Ok [] r2 /\
    _chars (ROW_new 2 0) !! 0%nat = Some UNICODE_SPACE /\
    _chars r2 !! 0%nat = Some letter_x /\
    _attr r2 = _attr (ROW_new 2 0).
Proof.
  intros. do 2 eexists.
  split; [vm_compute; reflexivity|].
  do 3 (split; [vm_compute; reflexivity|]).
  split; [vm_compute; reflexivity|].
  repeat split; vm_compute; reflexivity.
Qed.

(** ** A wide glyph at the last writable column *)

(** C6, as the code has it: when the loop stands on the last writable
    column with a leading (wide) cell whose mode is not [StoredOnly], that
    turn clears the column through ClearCell - which, when it returns, has
    put a space at the offset ch0 + leadingSpaces of its Replace - sets
    doubleBytePadded, keeps the iterator on the cell, and is the last turn
    of the loop whatever fuel is left. *)
Theorem C6_wide_glyph_at_last_column fuel final wrap c rest l r l1 r1 :
  it l = c :: rest ->
  currentIndex l = final ->
  0 <= final < 65535 ->
  DbcsAttr c = Leading ->
  TextAttrBehavior c <> StoredOnly ->
  attr_phase c l r = (l1, r1) ->
  (ClearCell final r1 = None ->
     WriteCells_loop (S fuel) final wrap l r = Undefined) /\
  (forall r2, ClearCell final r1 = Some r2 ->
     exists l' r',
       WriteCells_loop (S fuel) final wrap l r = Ok l' r' /\
       it l' = it l /\
       currentIndex l' = final + 1 /\
       _doubleBytePadded r' = true /\
       _chars r' = _chars r2 /\ _indices r' = _indices r2 /\
       exists s,
         Replace_scan final 1 r = Some s /\
         read_n (_chars r') (ch0 s + leadingSpaces s) 1 = Some [UNICODE_SPACE]).
Proof.
  intros Hit Hci Hfinal Hlead Hmode Hattr.
  pose proof (attr_phase_locals c l r) as Hloc.
  pose proof (attr_phase_text c l r) as Hfr.
  rewrite Hattr in Hloc, Hfr. simpl in Hloc, Hfr.
  destruct Hloc as [Hit1 Hci1]. destruct Hfr as (_ & _ & Hidx & Hcnt & _).
  assert (Hturn : WriteCells_loop (S fuel) final wrap l r =
                  match place final wrap c l1 r1 with
                  | None => Undefined
                  | Some (l2, r2) => WriteCells_loop fuel final wrap (next_column l2) r2
                  end).
  { simpl. rewrite Hit. rewrite decide_True by lia.
    unfold body. rewrite Hattr. unfold text_phase. rewrite decide_True by done.
    destruct (place final wrap c l1 r1) as [[l2 r2]|]; done. }
  assert (Hplace : place final wrap c l1 r1 =
                   r' ← ClearCell final r1;
                   Some (l1, match wrap with
                             | Some w => SetWrapForced w (SetDoubleBytePadded true r')
                             | None => SetDoubleBytePadded true r'
                             end)).
  { unfold place. rewrite Hlead. simpl. rewrite andb_false_r.
    rewrite Hci1, Hci. rewrite bool_decide_eq_true_2 by done. simpl.
    destruct (ClearCell final r1); simpl; [|done]. by destruct wrap. }
  rewrite Hturn, Hplace. split.
  - intros ->. done.
  - intros r2 Hclear. rewrite Hclear. simpl.
    assert (Hnext : u16 (final + 1) = final + 1).
    { unfold u16. change (2 ^ 16) with 65536. apply Z.mod_small. lia. }
    eexists _, _. split.
    { destruct fuel; simpl; rewrite Hit1, Hit, Hci1, Hci, Hnext;
        rewrite decide_False by lia; reflexivity. }
    simpl. rewrite Hit1, Hci1, Hci, Hnext.
    split; [done|]. split; [done|].
    split; [by destruct wrap|]. split; [by destruct wrap|].
    split; [by destruct wrap|].
    destruct (Replace_stores_text _ _ _ _ _ Hclear) as (s & Hs & Hread).
    exists s. split.
    + rewrite <- Hs. symmetry. by apply Replace_scan_indices.
    + destruct wrap; exact Hread.
Qed.

Lemma C6_wide_glyph_at_last_column_witness :
  let l := mkLocals [wide_cell] 7 0 1 1 in
  let l1 := mkLocals [wide_cell] 7 1 1 1 in
  attr_phase wide_cell l (ROW_new 2 0) = (l1, ROW_new 2 0) /\
  ClearCell 1 (ROW_new 2 0) = Some (ROW_new 2 0) /\
  exists l' r',
    WriteCells_loop 1 1 None l (ROW_new 2 0) = Ok l' r' /\
    it l' = it l /\
    currentIndex l' = 1 + 1 /\
    _doubleBytePadded r' = true /\
    _chars r' = _chars (ROW_new 2 0) /\ _indices r' = _indices (ROW_new 2 0) /\
    exists s,
      Replace_scan 1 1 (ROW_new 2 0) = Some s /\
      read_n (_chars r') (ch0 s + leadingSpaces s) 1 = Some [UNICODE_SPACE].
Proof.
  intros l l1.
  assert (Hattr : attr_phase wide_cell l (ROW_new 2 0) = (l1, ROW_new 2 0))
    by (vm_compute; reflexivity).
  assert (Hclear : ClearCell 1 (ROW_new 2 0) = Some (ROW_new 2 0))
    by (vm_compute; reflexivity).
  assert (Hfinal : 0 <= 1 < 65535) by lia.
  assert (Hmode : TextAttrBehavior wide_cell <> StoredOnly) by discriminate.
  split; [exact Hattr|]. split; [exact Hclear|].
  exact (proj2 (C6_wide_glyph_at_last_column 0 1 None wide_cell [] l (ROW_new 2 0)
                  l1 (ROW_new 2 0) eq_refl eq_refl Hfinal eq_refl Hmode Hattr)
               _ Hclear).
Defined.

(** C6, as the specification states it, fails for a [StoredOnly] cell: a leading
    cell of that mode met at the last column of a two-column row is
    stepped over (the iterator comes back standing on the next cell), the
    column is not rewritten and doubleBytePadded stays false. *)
Lemma C6_stored_only_counterexample :
  let wide := mkCell [20320] Leading 7 StoredOnly in
  let next := mkCell [letter_b] Single 7 Stored in
  exists r',
    WriteCells [wide; next] 1 None None (ROW_new 2 0) = Ok [next] r' /\
    finalColumn None (ROW_new 2 0) = 1 /\
    _doubleBytePadded r' = false /\
    _chars r' = _chars (ROW_new 2 0) /\
    _indices r' = _indices (ROW_new 2 0).
Proof.
  intros. eexists. split; [vm_compute; reflexivity|].
  repeat split; vm_compute; reflexivity.
Qed.

(** ** The whole loop: termination, the iterator, the attribute frame *)

Lemma ReplaceAttr_outside colBegin colEnd a r (col : nat) :
  ~ (colBegin <= Z.of_nat col < colEnd) ->
  _attr (ReplaceAttr colBegin colEnd a r) !! col = _attr r !! col.
Proof.
  intros Hout. unfold ReplaceAttr. simpl. rewrite list_lookup_imap.
  destruct (_attr r !! col); simpl; [|done]. by rewrite decide_False.
Qed.

Lemma text_phase_frame final wrap c l r l' r' :
  text_phase final wrap c l r = Some (l', r') ->
  currentColor l' = currentColor l /\ colorUses l' = colorUses l /\
  colorStarts l' = colorStarts l /\ currentIndex l' = currentIndex l /\
  (it l' = it l \/ it l' = tail (it l)) /\
  _attr r' = _attr r /\ _indicesCount r' = _indicesCount r.
Proof.
  unfold text_phase. case_decide as Hm.
  - unfold place. intros H. apply bind_Some in H as ([l3 r3] & H3 & H).
    assert (l' = l3 /\ _attr r' = _attr r3 /\ _indicesCount r' = _indicesCount r3)
      as (-> & -> & ->).
    { destruct wrap as [w|]; [case_bool_decide|]; by injection H as <- <-. }
    clear H. unfold ClearCell in H3.
    repeat match type of H3 with
           | (if ?b then _ else _) = _ => destruct b
           end;
      apply bind_Some in H3 as (r4 & H4 & [= <- <-]);
      apply Replace_same_frame in H4 as (Hn & Ha & _); simpl;
      rewrite ?Ha, ?Hn; auto 10.
  - intros [= <- <-]. simpl. auto 10.
Qed.

Lemma body_step final wrap c l r l' r' :
  body final wrap c l r = Some (l', r') ->
  currentIndex l' = u16 (currentIndex l + 1) /\
  (it l' = it l \/ it l' = tail (it l)) /\
  (colorStarts l' = colorStarts l \/ colorStarts l' = currentIndex l) /\
  _indicesCount r' = _indicesCount r /\
  forall col : nat,
    ~ (colorStarts l <= Z.of_nat col < currentIndex l) ->
    _attr r' !! col = _attr r !! col.
Proof.
  unfold body. destruct (attr_phase c l r) as [l1 r1] eqn:Hattr. intros H.
  apply bind_Some in H as ([l2 r2] & Htext & [= <- <-]).
  apply text_phase_frame in Htext as (_ & _ & Hst & Hci & Hit & Hat & Hn).
  simpl. rewrite Hci, Hst, Hat, Hn.
  pose proof (attr_phase_locals c l r) as Hloc.
  pose proof (attr_phase_text c l r) as Hfr.
  rewrite Hattr in Hloc, Hfr. simpl in Hloc, Hfr.
  destruct Hloc as [Hit1 Hci1]. destruct Hfr as (_ & _ & _ & Hcnt & _).
  rewrite Hci1, Hcnt. rewrite Hit1 in Hit.
  split; [done|]. split; [done|].
  unfold attr_phase, accumulate in Hattr.
  repeat case_decide; injection Hattr as <- <-; simpl;
    (split; [auto|]); (split; [done|]); intros col Hcol; try done.
  by apply ReplaceAttr_outside.
Qed.

(** A turn moves the iterator past its cell, except in the two padding
    cases, where it stays on the cell. *)
Lemma body_iterator final wrap c l r l' r' :
  body final wrap c l r = Some (l', r') ->
  it l' = tail (it l) \/
  (it l' = it l /\ TextAttrBehavior c <> StoredOnly /\
   ((currentIndex l = 0 /\ DbcsAttr c = Trailing) \/
    (currentIndex l = final /\ DbcsAttr c = Leading))).
Proof.
  unfold body. destruct (attr_phase c l r) as [l1 r1] eqn:Hattr. intros H.
  apply bind_Some in H as ([l2 r2] & Htext & [= <- <-]).
  pose proof (attr_phase_locals c l r) as Hloc. rewrite Hattr in Hloc.
  simpl in Hloc. destruct Hloc as [Hit1 Hci1]. simpl.
  rewrite <- Hit1, <- Hci1. clear Hattr Hit1 Hci1.
  unfold text_phase in Htext. case_decide as Hm.
  2:{ injection Htext as <- <-. by left. }
  unfold place in Htext. apply bind_Some in Htext as ([l3 r3] & H3 & H).
  assert (l2 = l3) as ->.
  { destruct wrap as [w|]; [case_bool_decide|]; by injection H as <- <-. }
  clear H.
  destruct (bool_decide (currentIndex l1 = 0)) eqn:E0;
    destruct (DbcsAttr c) eqn:Ed;
    destruct (bool_decide (currentIndex l1 = final)) eqn:Ef;
    simpl in H3;
    apply bind_Some in H3 as (r4 & _ & [= <- <-]);
    try (by left);
    right; (split; [done|]); (split; [done|]);
    try apply bool_decide_eq_true in E0;
    try apply bool_decide_eq_true in Ef; auto.
Qed.

(** A turn has no defined result only when the Replace that places its
    text has none. *)
Lemma body_fault final wrap c l r :
  body final wrap c l r = None ->
  TextAttrBehavior c <> StoredOnly /\
  Replace (currentIndex l) (placed final c l).1 (placed final c l).2
          (attr_phase c l r).2 = None.
Proof.
  unfold body. pose proof (attr_phase_locals c l r) as Hloc.
  destruct (attr_phase c l r) as [l1 r1]. simpl in Hloc.
  destruct Hloc as [_ Hci1]. simpl. intros H.
  destruct (text_phase final wrap c l1 r1) as [[l2 r2]|] eqn:Htext; [done|].
  clear H. unfold text_phase in Htext. case_decide as Hm; [|done].
  split; [done|]. unfold place in Htext. unfold placed. rewrite <- Hci1.
  unfold ClearCell in Htext.
  destruct (bool_decide (currentIndex l1 = 0) && IsTrailing (DbcsAttr c)); simpl.
  { destruct (Replace (currentIndex l1) 1 [UNICODE_SPACE] r1); [|done].
    simpl in Htext. by destruct wrap as [w|]; [case_bool_decide|]. }
  destruct (bool_decide (currentIndex l1 = final) && IsLeading (DbcsAttr c)); simpl.
  { destruct (Replace (currentIndex l1) 1 [UNICODE_SPACE] r1); [|done].
    simpl in Htext. by destruct wrap as [w|]; [case_bool_decide|]. }
  destruct (Replace (currentIndex l1) (dbcs_width (DbcsAttr c)) (Chars c) r1);
    [|done].
  simpl in Htext. by destruct wrap as [w|]; [case_bool_decide|].
Qed.

(** The loop as a whole.  Either it comes to a turn whose Replace has no
    defined result, or it leaves with the iterator exhausted or the column
    counter past the last writable column; the columns it went over are
    one per consumed cell, plus at most one padding turn at column 0 and
    one at the last column, the latter leaving its cell in the source. *)
Lemma WriteCells_loop_spec final wrap :
  final < 65535 ->
  forall fuel l r,
    0 <= currentIndex l ->
    colorStarts l <= currentIndex l ->
    final + 1 - currentIndex l <= Z.of_nat fuel ->
    (WriteCells_loop fuel final wrap l r = Undefined /\
     exists c lk rk,
       WriteCells_turns final wrap l r lk rk /\
       head (it lk) = Some c /\ currentIndex lk <= final /\
       TextAttrBehavior c <> StoredOnly /\
       Replace (currentIndex lk) (placed final c lk).1 (placed final c lk).2
               (attr_phase c lk rk).2 = None) \/
    exists l' r',
      WriteCells_turns final wrap l r l' r' /\
      WriteCells_loop fuel final wrap l r = Ok l' r' /\
      (it l' = [] \/ final < currentIndex l') /\
      currentIndex l <= currentIndex l' <= Z.max (currentIndex l) (final + 1) /\
      colorStarts l <= colorStarts l' <= currentIndex l' /\
      (exists consumed,
         it l = consumed ++ it l' /\
         Z.of_nat (length consumed) <= currentIndex l' - currentIndex l /\
         currentIndex l' - currentIndex l
           <= Z.of_nat (length consumed)
              + (if decide (currentIndex l = 0) then 1 else 0)
              + (match it l' with [] => 0 | _ => 1 end)) /\
      _indicesCount r' = _indicesCount r /\
      forall col : nat,
        ~ (colorStarts l <= Z.of_nat col < currentIndex l') ->
        _attr r' !! col = _attr r !! col.
Proof.
  intros Hfinal.
  assert (Hstay : forall fuel l r,
             (it l = [] \/ final < currentIndex l) ->
             WriteCells_loop fuel final wrap l r = Ok l r).
  { intros fuel l r Hend. destruct fuel; simpl;
      destruct (it l) as [|c rest]; try done;
      destruct Hend as [|Hend]; try done; by rewrite decide_False by lia. }
  assert (Hhere : forall fuel l r,
             0 <= currentIndex l -> colorStarts l <= currentIndex l ->
             (it l = [] \/ final < currentIndex l) ->
             exists l' r',
               WriteCells_turns final wrap l r l' r' /\
               WriteCells_loop fuel final wrap l r = Ok l' r' /\
               (it l' = [] \/ final < currentIndex l') /\
               currentIndex l <= currentIndex l'
                 <= Z.max (currentIndex l) (final + 1) /\
               colorStarts l <= colorStarts l' <= currentIndex l' /\
               (exists consumed,
                  it l = consumed ++ it l' /\
                  Z.of_nat (length consumed) <= currentIndex l' - currentIndex l /\
                  currentIndex l' - currentIndex l
                    <= Z.of_nat (length consumed)
                       + (if decide (currentIndex l = 0) then 1 else 0)
                       + (match it l' with [] => 0 | _ => 1 end)) /\
               _indicesCount r' = _indicesCount r /\
               forall col : nat,
                 ~ (colorStarts l <= Z.of_nat col < currentIndex l') ->
                 _attr r' !! col = _attr r !! col).
  { intros fuel l r Hci Hst Hend. exists l, r. split; [constructor|].
    split; [by apply Hstay|]. split; [done|]. split; [lia|]. split; [lia|].
    split; [|done]. exists []. split; [done|]. simpl.
    case_decide; destruct (it l); lia. }
  induction fuel as [|fuel IH]; intros l r Hci Hst Hfuel.
  { right. apply Hhere; [done|done|]. right. lia. }
  assert (Hcase : it l = [] \/ exists c rest, it l = c :: rest)
    by (destruct (it l); eauto).
  destruct Hcase as [Hnil|(c & rest & Hit)].
  { right. apply Hhere; auto. }
  destruct (decide (currentIndex l <= final)) as [Hle|Hgt].
  2:{ right. apply Hhere; [done|done|]. right. lia. }
  simpl. rewrite Hit. rewrite decide_True by done.
  destruct (body final wrap c l r) as [[l1 r1]|] eqn:Hbody.
  2:{ left. split; [done|]. apply body_fault in Hbody as [Hm Hrep].
      exists c, l, r. split; [constructor|]. by rewrite Hit. }
  pose proof (body_iterator _ _ _ _ _ _ _ Hbody) as Hkind.
  pose proof (turns_more final wrap l r c rest l1 r1) as Hturn.
  specialize (fun l' r' => Hturn l' r' Hit Hle Hbody).
  apply body_step in Hbody as (Hci1 & _ & Hst1 & Hn1 & Hat1).
  rewrite Hit in Hkind. simpl in Hkind.
  assert (Hnext : currentIndex l1 = currentIndex l + 1).
  { rewrite Hci1. unfold u16. change (2 ^ 16) with 65536.
    apply Z.mod_small. lia. }
  destruct (IH l1 r1)
    as [[Hundef (c' & lk & rk & Hreach & Hhead & Hk & Hm & Hrep)]
       |(l' & r' & Hreach & Hloop & Hexit & Hmono & Hcs & Hcons & Hn & Hat)];
    [lia | lia | lia | |].
  { left. split; [done|]. exists c', lk, rk. auto. }
  right. exists l', r'. split; [auto|]. split; [done|]. split; [done|].
  split; [lia|]. split; [lia|]. split; [|split; [congruence|]].
  2:{ intros col Hcol. rewrite Hat by lia. apply Hat1. lia. }
  destruct Hcons as (consumed & Hcons & Hlo & Hhi).
  rewrite decide_False in Hhi by lia.
  destruct Hkind as [Heq|(Heq & _ & [[H0 _]|[Hf _]])]; rewrite Heq in Hcons.
  - exists (c :: consumed). split; [by rewrite Hcons|]. simpl length.
    split; [lia|]. case_decide; lia.
  - exists consumed. split; [done|]. split; [lia|].
    rewrite decide_True by done. lia.
  - assert (Hl' : WriteCells_loop fuel final wrap l1 r1 = Ok l1 r1).
    { apply Hstay. right. lia. }
    rewrite Hl' in Hloop. injection Hloop as <- <-.
    exists consumed. split; [done|]. split; [lia|].
    rewrite Heq in Hhi |- *. case_decide; lia.
Qed.

Lemma row_wide_reachable : Replace 0 2 [letter_W] (ROW_new 3 0) = Some row_wide.
Proof. vm_compute. reflexivity. Qed.

(** C8, as the code has it: take a WriteCells call with in-range arguments
    on a row of at most 65535 columns whose cell source is not exhausted at
    the call (it stands on the cell [first]).  The call never raises, never
    reads the iterator while it is exhausted and leaves its loop within
    the fuel granted.  It has no defined result only when its loop comes,
    after some complete turns, to a cell whose mode is not [StoredOnly] at
    a column up to [final] and the Replace that places the text of that
    cell has none.  Otherwise the loop leaves after some complete turns
    with the locals [l'], and the call returns the iterator [it l'] and
    the row committed from that state: what is returned is what the cells
    [consumed] leave of the source; either it is exhausted or the column
    counter [currentIndex l'] is past the last writable column [final];
    the columns gone over, [index, currentIndex l'), are one per consumed
    cell, plus at most one for the padding turn at column 0 (only when
    [index] is 0) and one for the padding turn at the last column (only
    when a cell is left); the column count is kept and the attribute of
    every column outside [index, currentIndex l') is the one the row had
    before. *)
Theorem C8_source_exhaustion first rest index wrap limitRight r :
  0 <= index < size r ->
  size r <= 65535 ->
  (forall lim, limitRight = Some lim -> 0 <= lim < size r) ->
  let cells := first :: rest in
  let final := finalColumn limitRight r in
  let l0 := mkLocals cells (TextAttr first) 0 index index in
  (WriteCells cells index wrap limitRight r = Undefined /\
   exists c lk rk,
     WriteCells_turns final wrap l0 r lk rk /\
     head (it lk) = Some c /\ currentIndex lk <= final /\
     TextAttrBehavior c <> StoredOnly /\
     Replace (currentIndex lk) (placed final c lk).1 (placed final c lk).2
             (attr_phase c lk rk).2 = None) \/
  exists l' r1 consumed,
    WriteCells_turns final wrap l0 r l' r1 /\
    WriteCells cells index wrap limitRight r = Ok (it l') (commit l' r1) /\
    cells = consumed ++ it l' /\
    (it l' = [] \/ final < currentIndex l') /\
    index + Z.of_nat (length consumed) <= currentIndex l' /\
    currentIndex l' <= index + Z.of_nat (length consumed)
                       + (if decide (index = 0) then 1 else 0)
                       + (match it l' with [] => 0 | _ => 1 end) /\
    currentIndex l' <= Z.max index (final + 1) /\
    _indicesCount (commit l' r1) = _indicesCount r /\
    forall col : nat,
      ~ (index <= Z.of_nat col < currentIndex l') ->
      _attr (commit l' r1) !! col = _attr r !! col.
Proof.
  intros Hindex Hsize Hlim cells final l0. subst cells. unfold WriteCells.
  rewrite decide_False by lia.
  assert (Hfinal : final < size r).
  { unfold final, finalColumn. destruct limitRight as [lim|]; simpl.
    - destruct (Hlim lim eq_refl). lia.
    - unfold usize. change (2 ^ 64) with 18446744073709551616.
      rewrite Z.mod_small by lia. lia. }
  rewrite decide_False.
  2:{ destruct limitRight as [lim|]; simpl; [destruct (Hlim lim eq_refl)|]; lia. }
  assert (Hu : u16 index = index).
  { unfold u16. change (2 ^ 16) with 65536. apply Z.mod_small. lia. }
  rewrite Hu. fold final. fold l0.
  destruct (WriteCells_loop_spec final wrap ltac:(lia)
              (Z.to_nat (size r)) l0 r)
    as [[-> Hfault]
       |(l' & r' & Hreach & -> & Hexit & Hmono & Hcs
           & (consumed & Hcons & Hlo & Hhi) & Hn & Hat)];
    [simpl; lia | simpl; lia | simpl; lia | by left |].
  right. exists l', r', consumed.
  simpl in Hmono, Hcs, Hcons, Hlo, Hhi, Hat.
  split; [done|]. split; [done|]. split; [done|]. split; [done|].
  split; [lia|]. split; [lia|]. split; [lia|]. unfold commit.
  destruct (decide (colorUses l' <> 0)) as [Huses|Huses].
  - split; [done|]. intros col Hcol.
    rewrite ReplaceAttr_outside by lia. apply Hat. lia.
  - split; [done|]. intros col Hcol. apply Hat. lia.
Qed.

Lemma C8_source_exhaustion_witness :
  (0 <= 0 < size row_wide /\ size row_wide <= 65535) /\
  ((WriteCells [narrow_cell] 0 None None row_wide = Undefined /\
    exists c lk rk,
      WriteCells_turns (finalColumn None row_wide) None
        (mkLocals [narrow_cell] (TextAttr narrow_cell) 0 0 0) row_wide lk rk /\
      head (it lk) = Some c /\ currentIndex lk <= finalColumn None row_wide /\
      TextAttrBehavior c <> StoredOnly /\
      Replace (currentIndex lk) (placed (finalColumn None row_wide) c lk).1
              (placed (finalColumn None row_wide) c lk).2
              (attr_phase c lk rk).2 = None) \/
   exists l' r1 consumed,
     WriteCells_turns (finalColumn None row_wide) None
       (mkLocals [narrow_cell] (TextAttr narrow_cell) 0 0 0) row_wide l' r1 /\
     WriteCells [narrow_cell] 0 None None row_wide = Ok (it l') (commit l' r1) /\
     [narrow_cell] = consumed ++ it l' /\
     (it l' = [] \/ finalColumn None row_wide < currentIndex l') /\
     0 + Z.of_nat (length consumed) <= currentIndex l' /\
     currentIndex l' <= 0 + Z.of_nat (length consumed)
                        + (if decide (0 = 0) then 1 else 0)
                        + (match it l' with [] => 0 | _ => 1 end) /\
     currentIndex l' <= Z.max 0 (finalColumn None row_wide + 1) /\
     _indicesCount (commit l' r1) = _indicesCount row_wide /\
     forall col : nat,
       ~ (0 <= Z.of_nat col < currentIndex l') ->
       _attr (commit l' r1) !! col = _attr row_wide !! col).
Proof.
  assert (H1 : 0 <= 0 < size row_wide)
    by (vm_compute; split; [discriminate | reflexivity]).
  assert (H2 : size row_wide <= 65535) by (vm_compute; discriminate).
  split; [exact (conj H1 H2)|].
  apply (C8_source_exhaustion narrow_cell [] 0 None None row_wide H1 H2).
  intros lim Hlim. discriminate Hlim.
Defined.

(** C8, as the specification states it, fails on the columns that were not
    reached: one narrow cell written at column 0 of the row whose columns
    0 and 1 hold the wide glyph "W" exhausts the source after column 0,
    yet column 1, which mapped to offset 0 (the "W"), now maps to offset 1,
    where a space was put. *)
Lemma C8_unreached_column_counterexample :
  exists r',
    WriteCells [mkCell [letter_a] Single 7 Stored] 0 None None row_wide = Ok [] r' /\
    load (_indices row_wide) 1 = Some 0 /\
    load (_chars row_wide) 0 = Some letter_W /\
    load (_indices r') 1 = Some 1 /\
    load (_chars r') 1 = Some UNICODE_SPACE /\
    _indices r' <> _indices row_wide.
Proof.
  eexists. split; [vm_compute; reflexivity|].
  repeat split; try (vm_compute; reflexivity). vm_compute. discriminate.
Qed.

(** ** Replace on a row that satisfies the storage invariants *)

Section LoadFacts.
Context {A : Type}.
Implicit Types (buf data : list A).

Lemma load_lookup buf i : 0 <= i -> load buf i = buf !! Z.to_nat i.
Proof. intros. unfold load. by rewrite decide_True. Qed.

Lemma load_Some_bounds buf i v :
  load buf i = Some v -> 0 <= i < Z.of_nat (length buf).
Proof.
  unfold load. case_decide as Hd; [|done]. intros H%lookup_lt_Some. lia.
Qed.

Lemma load_write_at buf pos data buf' i :
  write_at buf pos data = Some buf' -> 0 <= i ->
  load buf' i =
    if decide (pos <= i < pos + Z.of_nat (length data))
    then load data (i - pos) else load buf i.
Proof.
  intros Hw Hi. rewrite !load_lookup by lia.
  rewrite (write_at_lookup _ _ _ _ _ Hw).
  destruct (decide (data = [])) as [->|Hne].
  { simpl. rewrite decide_False by lia. rewrite decide_False by lia.
    by rewrite load_lookup by lia. }
  pose proof (write_at_bounds _ _ _ _ Hw Hne) as [Hp _].
  case_decide as H1; case_decide as H2; try lia; rewrite load_lookup by lia;
    [|done].
  f_equal. lia.
Qed.

Lemma load_read_n buf pos n data k :
  read_n buf pos n = Some data -> 0 <= k < n ->
  load data k = load buf (pos + k).
Proof.
  intros Hr Hk.
  assert (0 <= pos).
  { unfold read_n in Hr. case_decide; [lia|]. case_decide; [lia | done]. }
  rewrite !load_lookup by lia.
  rewrite (read_n_lookup buf pos n data (Z.to_nat k) Hr) by lia. f_equal. lia.
Qed.
End LoadFacts.

Lemma scan_left_le idx c n o : scan_left idx c n = Some o -> (o <= n)%nat.
Proof.
  induction n as [|n IH]; simpl.
  - intros [= <-]. lia.
  - destruct (idx !! n); [|done]. case_decide as Hd.
    + intros H%IH. lia.
    + intros [= <-]. lia.
Qed.

Lemma scan_right_spec rest c o o1 c1 :
  scan_right rest c o = Some (o1, c1) ->
  o <= o1 /\ rest !! Z.to_nat (o1 - o) = Some c1 /\ c1 <> c.
Proof.
  revert o. induction rest as [|v rest IH]; intros o; simpl; [done|].
  case_decide as Hv.
  - intros (Hle & Hlook & Hne)%IH. split; [lia|]. split; [|done].
    replace (Z.to_nat (o1 - o)) with (S (Z.to_nat (o1 - (o + 1)))) by lia.
    done.
  - intros [= <- <-]. split; [lia|]. split; [|done].
    by rewrite Z.sub_diag.
Qed.

Lemma usize_small z : 0 <= z < 2 ^ 64 -> usize z = z.
Proof. intros. unfold usize. by apply Z.mod_small. Qed.

Lemma u16_small z : 0 <= z < 2 ^ 16 -> u16 z = z.
Proof. intros. unfold u16. by apply Z.mod_small. Qed.

Lemma usize_add_usize a b : usize (a + usize b) = usize (a + b).
Proof. unfold usize. by rewrite Z.add_mod_idemp_r. Qed.

Lemma u16_add_usize a b : u16 (a + usize b) = u16 (a + b).
Proof.
  unfold u16, usize.
  rewrite <- (Z.add_mod_idemp_r a (b mod 2 ^ 64)) by done.
  rewrite (Z.mod_mod_divide b (2 ^ 64) (2 ^ 16)) by (by exists (2 ^ 48)).
  by rewrite Z.add_mod_idemp_r.
Qed.

(** What the scan of lines 174-187 found, on a row that satisfies the
    invariants. *)
Lemma Replace_scan_facts x width r s :
  row_ok r -> 0 <= x -> 0 <= width < 2 ^ 63 ->
  Replace_scan x width r = Some s ->
  new0 s = Z.min x (_indicesCount r) /\
  new1 s = Z.min (new0 s + width) (_indicesCount r) /\
  0 <= old0 s <= new0 s /\
  new0 s < old1 s <= _indicesCount r /\
  new1 s <= old1 s /\
  load (_indices r) (new0 s) = Some (ch0 s) /\
  load (_indices r) (old1 s) = Some (ch1 s) /\
  0 <= ch0 s < ch1 s /\
  ch1 s <= currentLength r.
Proof.
  intros Hok Hx Hw. unfold Replace_scan. intros H.
  pose proof (ok_count r Hok) as Hcnt. change (2 ^ 16) with 65536 in Hcnt.
  change (2 ^ 63) with 9223372036854775808 in Hw.
  apply bind_Some in H as (c0 & Hc0 & H).
  apply bind_Some in H as (o0 & Ho0 & H).
  apply bind_Some in H as ([o1 c1] & Hsr & [= <-]). simpl.
  rewrite usize_small in Hsr |- *
    by (change (2 ^ 64) with 18446744073709551616; lia).
  apply scan_left_le in Ho0.
  apply scan_right_spec in Hsr as (Hle & Hlook & Hne).
  rewrite lookup_drop in Hlook.
  replace (Z.to_nat (Z.min (Z.min x (_indicesCount r) + width) (_indicesCount r))
           + Z.to_nat (o1 - Z.min (Z.min x (_indicesCount r) + width) (_indicesCount r)))%nat
    with (Z.to_nat o1) in Hlook by lia.
  pose proof (lookup_lt_Some _ _ _ Hlook) as Hlt.
  pose proof (ok_indices_length r Hok) as Hlen.
  assert (Hc0' : _indices r !! Z.to_nat (Z.min x (_indicesCount r)) = Some c0).
  { by rewrite <- load_lookup by lia. }
  assert (Ho1 : load (_indices r) o1 = Some c1) by (by rewrite load_lookup by lia).
  assert (Hneq : o1 <> Z.min x (_indicesCount r)) by (intros ->; congruence).
  assert (Hmono : c0 <= c1).
  { eapply (ok_monotone r Hok (Z.to_nat (Z.min x (_indicesCount r))) (Z.to_nat o1));
      [lia | done | done]. }
  assert (Hsent : c1 <= currentLength r).
  { unfold currentLength. rewrite load_lookup by lia.
    destruct (_indices r !! Z.to_nat (_indicesCount r)) as [e|] eqn:He.
    - simpl. eapply (ok_monotone r Hok (Z.to_nat o1) (Z.to_nat (_indicesCount r)));
        [lia | done | done].
    - apply lookup_ge_None_1 in He. lia. }
  pose proof (ok_nonneg r Hok _ _ Hc0').
  repeat split; try done; try lia.
Qed.

Lemma shift_indices_length idx from count d idx' :
  shift_indices idx from count d = Some idx' -> 0 <= from <= count + 1 ->
  length idx' = length idx.
Proof.
  unfold shift_indices. case_decide as Hlen; [|done]. intros [= <-] Hfrom.
  rewrite !length_app, length_fmap, !length_take, !length_drop. lia.
Qed.

Lemma shift_indices_load idx from count d idx' i :
  shift_indices idx from count d = Some idx' -> 0 <= from <= count + 1 ->
  from <= i <= count ->
  load idx' i = (fun v => u16 (v + d)) <$> load idx i.
Proof.
  unfold shift_indices. case_decide as Hlen; [|done]. intros [= <-] Hfrom Hi.
  rewrite !load_lookup by lia.
  rewrite lookup_app_r by (rewrite length_take; lia).
  rewrite length_take.
  rewrite lookup_app_l
    by (rewrite length_fmap, length_take, length_drop; lia).
  rewrite list_lookup_fmap. rewrite lookup_take_lt by lia.
  rewrite lookup_drop. do 2 f_equal. lia.
Qed.

Section ReplaceOnGoodRow.
Variables (r : ROW) (s : Span) (chars : list wchar_t).

Let inserted : Z := Z.of_nat (length chars) + leadingSpaces s + trailingSpaces s.
Let delta : Z := inserted + ch0 s - ch1 s.
Let newLength : Z := currentLength r + delta.

Hypothesis Hok : row_ok r.
Hypothesis Hcols : 0 <= old0 s <= new0 s /\ new0 s <= new1 s <= old1 s
                   /\ old1 s <= _indicesCount r.
Hypothesis Hoffs : 0 <= ch0 s < ch1 s /\ ch1 s <= currentLength r.
Hypothesis Hold1 : load (_indices r) (old1 s) = Some (ch1 s).
Hypothesis Hnew : newLength < 2 ^ 16.
Hypothesis Hdiff : diff s chars <> 0.

Local Lemma inserted_bounds : 0 <= inserted /\ inserted + ch0 s <= newLength.
Proof.
  subst newLength delta inserted. unfold leadingSpaces, trailingSpaces. lia.
Qed.

Local Lemma insertedChars_eq : insertedChars s chars = inserted.
Proof.
  pose proof inserted_bounds. change (2 ^ 16) with 65536 in Hnew.
  unfold insertedChars. apply usize_small.
  change (2 ^ 64) with 18446744073709551616. subst inserted. lia.
Qed.

Local Lemma newRhs_eq : newRhs s chars = inserted + ch0 s.
Proof.
  pose proof inserted_bounds. change (2 ^ 16) with 65536 in Hnew.
  unfold newRhs. rewrite insertedChars_eq. apply usize_small.
  change (2 ^ 64) with 18446744073709551616. lia.
Qed.

Local Lemma diff_eq : diff s chars = usize delta.
Proof. unfold diff. by rewrite newRhs_eq. Qed.

Local Lemma sentinel_load :
  load (_indices r) (_indicesCount r) = Some (currentLength r).
Proof.
  pose proof (ok_count r Hok). pose proof (ok_indices_length r Hok).
  unfold currentLength. rewrite load_lookup by lia.
  destruct (_indices r !! Z.to_nat (_indicesCount r)) eqn:He; [done|].
  apply lookup_ge_None_1 in He. lia.
Qed.

(** Offsets from [old1] on lie between [ch1] and the used length. *)
Local Lemma later_offsets i v :
  old1 s <= i -> load (_indices r) i = Some v -> ch1 s <= v <= currentLength r.
Proof.
  intros Hi Hv. pose proof (load_Some_bounds _ _ _ Hv) as Hb.
  pose proof (ok_indices_length r Hok) as Hlen.
  pose proof sentinel_load as Hs. destruct Hcols as (? & ? & ?).
  rewrite load_lookup in Hv, Hs, Hold1 by lia. split.
  - eapply (ok_monotone r Hok (Z.to_nat (old1 s)) (Z.to_nat i)); [lia|done|done].
  - eapply (ok_monotone r Hok (Z.to_nat i) (Z.to_nat (_indicesCount r)));
      [lia|done|done].
Qed.

(** Lines 195-225 on such a row. *)
Lemma Replace_resize_spec :
  exists r1,
    Replace_resize s chars r = Some r1 /\
    _charsCapacity r1 =
      (if decide (newLength <= _charsCapacity r) then _charsCapacity r
       else Z.max newLength (_charsCapacity r + _charsCapacity r / 2)) /\
    Z.of_nat (length (_chars r1)) = _charsCapacity r1 /\
    newLength <= _charsCapacity r1 /\
    (forall k, 0 <= k < ch0 s -> load (_chars r1) k = load (_chars r) k) /\
    (forall k, 0 <= k < currentLength r - ch1 s ->
       load (_chars r1) (ch1 s + delta + k) = load (_chars r) (ch1 s + k)) /\
    length (_indices r1) = length (_indices r) /\
    (forall i, old1 s <= i <= _indicesCount r ->
       load (_indices r1) i = (fun v => v + delta) <$> load (_indices r) i).
Proof.
  pose proof inserted_bounds as [Hins Hrhs].
  pose proof (ok_count r Hok) as Hcnt.
  pose proof (ok_indices_length r Hok) as Hlen.
  pose proof (ok_chars_length r Hok) as Hclen.
  pose proof (ok_used r Hok) as Hused.
  pose proof (ok_capacity r Hok) as Hcap.
  destruct Hcols as (Hc1 & Hc2 & Hc3). destruct Hoffs as [Ho1 Ho2].
  change (2 ^ 16) with 65536 in *. change (2 ^ 62) with 4611686018427387904 in *.
  assert (HnewLen : usize (currentLength r + diff s chars) = newLength).
  { rewrite diff_eq, usize_add_usize. apply usize_small.
    change (2 ^ 64) with 18446744073709551616. subst newLength delta. lia. }
  assert (Hshift :
    exists idx, shift_indices (_indices r) (new1 s) (_indicesCount r)
                  (diff s chars) = Some idx /\
      length idx = length (_indices r) /\
      forall i, old1 s <= i <= _indicesCount r ->
        load idx i = (fun v => v + delta) <$> load (_indices r) i).
  { destruct (shift_indices (_indices r) (new1 s) (_indicesCount r) (diff s chars))
      as [idx|] eqn:Hsh.
    2:{ unfold shift_indices in Hsh. rewrite decide_True in Hsh by lia. done. }
    exists idx. split; [done|]. split.
    { apply (shift_indices_length _ _ _ _ _ Hsh). lia. }
    intros i Hi. rewrite (shift_indices_load _ _ _ _ _ i Hsh) by lia.
    destruct (load (_indices r) i) as [v|] eqn:Hv; simpl; [|done].
    f_equal. rewrite diff_eq, u16_add_usize.
    pose proof (later_offsets i v ltac:(lia) Hv).
    apply u16_small. change (2 ^ 16) with 65536.
    subst newLength delta. lia. }
  destruct Hshift as (idx & Hsh & Hil & Hiv).
  unfold Replace_resize. rewrite decide_False by done.
  rewrite sentinel_load. simpl. rewrite HnewLen, newRhs_eq.
  case_decide as Hfit.
  - (* the new length fits: the tail moves inside the buffer *)
    destruct (read_n_ok (_chars r) (ch1 s) (currentLength r - ch1 s)
                ltac:(lia) ltac:(lia)) as [data Hdata].
    pose proof (read_n_length _ _ _ _ Hdata) as Hdlen.
    destruct (write_at_ok (_chars r) (inserted + ch0 s) data
                ltac:(lia) ltac:(subst newLength delta; lia)) as [buf Hbuf].
    unfold copy_n. rewrite Hdata. simpl. rewrite Hbuf. simpl.
    rewrite Hsh. simpl. eexists. split; [reflexivity|]. simpl.
    pose proof (write_at_length _ _ _ _ Hbuf) as Hbl.
    split; [done|]. split; [lia|]. split; [done|]. split; [|split; [|done]].
    + intros k Hk. rewrite (load_write_at _ _ _ _ k Hbuf) by lia.
      rewrite decide_False by lia. done.
    + intros k Hk. rewrite (load_write_at _ _ _ _ _ Hbuf) by lia.
      rewrite decide_True by (subst delta; lia).
      rewrite (load_read_n _ _ _ _ _ Hdata) by (subst delta; lia).
      f_equal. subst delta. lia.
  - (* it does not: a larger buffer receives the head and the tail *)
    rewrite Z.shiftr_div_pow2 by lia. change (2 ^ 1) with 2.
    assert (Hdiv : 0 <= _charsCapacity r / 2 <= _charsCapacity r).
    { split; [apply Z.div_pos; lia | apply Z.div_le_upper_bound; lia]. }
    rewrite (usize_small (_charsCapacity r + _charsCapacity r / 2))
      by (change (2 ^ 64) with 18446744073709551616; lia).
    set (newCapacity := Z.max newLength (_charsCapacity r + _charsCapacity r / 2)).
    assert (Hnc : newLength <= newCapacity < 9223372036854775808)
      by (subst newCapacity; lia).
    unfold allocate. rewrite decide_True
      by (change (2 ^ 63) with 9223372036854775808; lia).
    simpl.
    assert (Hfl : Z.of_nat (length (replicate (Z.to_nat newCapacity) 0))
                  = newCapacity).
    { rewrite length_replicate. lia. }
    destruct (read_n_ok (_chars r) 0 (ch0 s) ltac:(lia) ltac:(lia)) as [hd Hhd].
    pose proof (read_n_length _ _ _ _ Hhd) as Hhl.
    destruct (write_at_ok (replicate (Z.to_nat newCapacity) 0) 0 hd
                ltac:(lia) ltac:(lia)) as [buf1 Hbuf1].
    pose proof (write_at_length _ _ _ _ Hbuf1) as Hb1l.
    destruct (read_n_ok (_chars r) (ch1 s) (currentLength r - ch1 s)
                ltac:(lia) ltac:(lia)) as [data Hdata].
    pose proof (read_n_length _ _ _ _ Hdata) as Hdlen.
    destruct (write_at_ok buf1 (inserted + ch0 s) data
                ltac:(lia) ltac:(subst newLength delta; lia))
      as [buf2 Hbuf2].
    pose proof (write_at_length _ _ _ _ Hbuf2) as Hb2l.
    unfold copy_n. rewrite Hhd. simpl. rewrite Hbuf1. simpl.
    rewrite Hdata. simpl. rewrite Hbuf2. simpl.
    rewrite Hsh. simpl. eexists. split; [reflexivity|]. simpl.
    split; [done|]. split; [lia|]. split; [lia|].
    split; [|split; [|done]].
    + intros k Hk. rewrite (load_write_at _ _ _ _ k Hbuf2) by lia.
      rewrite decide_False by lia.
      rewrite (load_write_at _ _ _ _ k Hbuf1) by lia.
      rewrite decide_True by lia.
      rewrite (load_read_n _ _ _ _ _ Hhd) by lia. f_equal. lia.
    + intros k Hk. rewrite (load_write_at _ _ _ _ _ Hbuf2) by lia.
      rewrite decide_True by (subst delta; lia).
      rewrite (load_read_n _ _ _ _ _ Hdata) by (subst delta; lia).
      f_equal. subst delta. lia.
Qed.
End ReplaceOnGoodRow.

(** Lines 227-232 when the gap [ch0, ch0 + inserted) lies in the buffer. *)
Lemma Replace_fill_spec s chars r1 :
  0 <= ch0 s -> 0 <= leadingSpaces s -> 0 <= trailingSpaces s ->
  ch0 s + (Z.of_nat (length chars) + leadingSpaces s + trailingSpaces s)
    <= Z.of_nat (length (_chars r1)) ->
  exists r2,
    Replace_fill s chars r1 = Some r2 /\
    length (_chars r2) = length (_chars r1) /\
    _charsCapacity r2 = _charsCapacity r1 /\
    _indices r2 = _indices r1 /\
    forall i, 0 <= i ->
      ~ (ch0 s <= i < ch0 s + (Z.of_nat (length chars) + leadingSpaces s
                                + trailingSpaces s)) ->
      load (_chars r2) i = load (_chars r1) i.
Proof.
  intros Hc0 Hlead Htrail Hfit. unfold Replace_fill, fill_n.
  destruct (write_at_ok (_chars r1) (ch0 s)
              (replicate (Z.to_nat (leadingSpaces s)) UNICODE_SPACE)
              ltac:(lia) ltac:(rewrite length_replicate; lia)) as [b1 Hb1].
  pose proof (write_at_length _ _ _ _ Hb1) as Hl1.
  destruct (write_at_ok b1 (ch0 s + leadingSpaces s) chars
              ltac:(lia) ltac:(lia)) as [b2 Hb2].
  pose proof (write_at_length _ _ _ _ Hb2) as Hl2.
  destruct (write_at_ok b2 (ch0 s + leadingSpaces s + Z.of_nat (length chars))
              (replicate (Z.to_nat (trailingSpaces s)) UNICODE_SPACE)
              ltac:(lia) ltac:(rewrite length_replicate; lia)) as [b3 Hb3].
  pose proof (write_at_length _ _ _ _ Hb3) as Hl3.
  rewrite Hb1. simpl. rewrite Hb2. simpl. rewrite Hb3. simpl.
  eexists. split; [reflexivity|]. simpl.
  split; [congruence|]. split; [done|]. split; [done|].
  intros i Hi Hout.
  rewrite (load_write_at _ _ _ _ i Hb3) by lia.
  rewrite decide_False by (rewrite length_replicate; lia).
  rewrite (load_write_at _ _ _ _ i Hb2) by lia.
  rewrite decide_False by lia.
  rewrite (load_write_at _ _ _ _ i Hb1) by lia.
  rewrite decide_False by (rewrite length_replicate; lia). done.
Qed.

(** Lines 234-249 when the rewritten columns lie in the index. *)
Lemma Replace_reindex_spec s r2 :
  0 <= old0 s <= new0 s -> new0 s <= new1 s <= old1 s ->
  old1 s < 2 ^ 16 -> old1 s <= Z.of_nat (length (_indices r2)) ->
  exists r',
    Replace_reindex s r2 = Some r' /\
    _chars r' = _chars r2 /\ _charsCapacity r' = _charsCapacity r2 /\
    forall i, old1 s <= i -> load (_indices r') i = load (_indices r2) i.
Proof.
  intros H0 H1 H16 Hlen. unfold Replace_reindex.
  rewrite decide_True by lia. rewrite (Z.max_r (new0 s) (new1 s)) by lia.
  set (data := seqZ (old0 s) (new0 s - old0 s)
                 ++ replicate (Z.to_nat (new1 s - new0 s)) (new0 s)
                 ++ seqZ (new1 s) (old1 s - new1 s)).
  assert (Hdl : Z.of_nat (length data) = old1 s - old0 s).
  { subst data. rewrite !length_app, !length_seqZ, length_replicate. lia. }
  destruct (write_at_ok (_indices r2) (old0 s) data ltac:(lia) ltac:(lia))
    as [idx Hidx].
  rewrite Hidx. simpl. eexists. split; [reflexivity|]. simpl.
  split; [done|]. split; [done|]. intros i Hi.
  rewrite (load_write_at _ _ _ _ i Hidx) by lia.
  by rewrite decide_False by lia.
Qed.

(** C4, as the code has it: on a row that satisfies the storage
    invariants, a Replace whose length change [diff] is not zero and whose
    new total length stays below 2^16 returns; the capacity is kept when
    the new length fits and becomes max(newLength, capacity + capacity/2)
    otherwise; in both cases the buffer has that many code units, the head
    [0, ch0) is where it was, the tail that stood at [ch1, end) is found
    shifted by the length change, and every index entry from [old1] on,
    the sentinel included, has grown by exactly the length change.  (The
    entries of [new1, old1) receive [diff] as well, and are then
    overwritten by the index rewrite.) *)
Theorem C4_Replace_growth r x width chars s :
  row_ok r ->
  0 <= x -> 0 <= width < 2 ^ 63 ->
  Replace_scan x width r = Some s ->
  diff s chars <> 0 ->
  currentLength r + lengthDelta s chars < 2 ^ 16 ->
  exists r',
    Replace x width chars r = Some r' /\
    diff s chars = usize (lengthDelta s chars) /\
    _charsCapacity r' =
      (if decide (currentLength r + lengthDelta s chars <= _charsCapacity r)
       then _charsCapacity r
       else Z.max (currentLength r + lengthDelta s chars)
                  (_charsCapacity r + _charsCapacity r / 2)) /\
    Z.of_nat (length (_chars r')) = _charsCapacity r' /\
    (forall k, 0 <= k < ch0 s -> load (_chars r') k = load (_chars r) k) /\
    (forall k, 0 <= k < currentLength r - ch1 s ->
       load (_chars r') (ch1 s + lengthDelta s chars + k)
         = load (_chars r) (ch1 s + k)) /\
    (forall i, old1 s <= i <= _indicesCount r ->
       load (_indices r') i
         = (fun v => v + lengthDelta s chars) <$> load (_indices r) i).
Proof.
  intros Hok Hx Hw Hscan Hdiff Hnew.
  destruct (Replace_scan_facts x width r s Hok Hx Hw Hscan)
    as (Hn0 & Hn1 & Ho0 & Ho1 & Hno & Hl0 & Hl1 & Hc0 & Hc1).
  pose proof (ok_count r Hok) as Hcnt.
  pose proof (ok_indices_length r Hok) as Hlen.
  assert (Hcols : 0 <= old0 s <= new0 s /\ new0 s <= new1 s <= old1 s
                  /\ old1 s <= _indicesCount r) by lia.
  unfold lengthDelta in *.
  destruct (Replace_resize_spec r s chars Hok Hcols (conj Hc0 Hc1) Hl1 Hnew Hdiff)
    as (r1 & Hres & Hcap1 & Hcl1 & Hfit1 & Hhead1 & Htail1 & Hil1 & Hidx1).
  assert (Hlead : 0 <= leadingSpaces s) by (unfold leadingSpaces; lia).
  assert (Htrail : 0 <= trailingSpaces s) by (unfold trailingSpaces; lia).
  destruct (Replace_fill_spec s chars r1 ltac:(lia) Hlead Htrail ltac:(lia))
    as (r2 & Hfill & Hcl2 & Hcap2 & Hi2 & Hkeep2).
  destruct (Replace_reindex_spec s r2 ltac:(lia) ltac:(lia) ltac:(lia)
              ltac:(rewrite Hi2, Hil1; lia))
    as (r' & Hre & Hch' & Hcap' & Hidx').
  exists r'. split.
  { unfold Replace. rewrite Hscan. simpl. rewrite Hres. simpl.
    rewrite Hfill. simpl. exact Hre. }
  split.
  { unfold diff, newRhs, insertedChars.
    change (2 ^ 16) with 65536 in *.
    rewrite (usize_small (Z.of_nat (length chars) + leadingSpaces s + trailingSpaces s))
      by (change (2 ^ 64) with 18446744073709551616; lia).
    rewrite (usize_small (Z.of_nat (length chars) + leadingSpaces s
                          + trailingSpaces s + ch0 s))
      by (change (2 ^ 64) with 18446744073709551616; lia).
    done. }
  split; [by rewrite Hcap', Hcap2, Hcap1|].
  split; [rewrite Hch', Hcap', Hcap2; lia|].
  split; [|split].
  - intros k Hk. rewrite Hch', Hkeep2 by lia. by apply Hhead1.
  - intros k Hk. rewrite Hch', Hkeep2 by lia. by apply Htail1.
  - intros i Hi. rewrite Hidx', Hi2 by lia. by apply Hidx1.
Qed.

(** Inside the resize step every entry from [new1] on receives [diff],
    with the [uint16_t] wrap of [*it += diff]. *)
Lemma Replace_resize_shifts_from_new1 s chars r r1 i :
  Replace_resize s chars r = Some r1 ->
  diff s chars <> 0 ->
  0 <= new1 s <= _indicesCount r + 1 ->
  new1 s <= i <= _indicesCount r ->
  load (_indices r1) i = (fun v => u16 (v + diff s chars)) <$> load (_indices r) i.
Proof.
  unfold Replace_resize. intros H Hd Hn Hi. rewrite decide_False in H by done.
  apply bind_Some in H as (cur & _ & H).
  apply bind_Some in H as (r0 & Hr0 & H).
  apply bind_Some in H as (idx & Hsh & [= <-]). simpl.
  assert (_indices r0 = _indices r /\ _indicesCount r0 = _indicesCount r) as [Hi0 Hc0].
  { case_decide as Hfit.
    - by apply bind_Some in Hr0 as (buf & _ & [= <-]).
    - apply bind_Some in Hr0 as (fresh & _ & Hr0).
      apply bind_Some in Hr0 as (buf1 & _ & Hr0).
      by apply bind_Some in Hr0 as (buf2 & _ & [= <-]). }
  rewrite Hi0, Hc0 in Hsh.
  apply (shift_indices_load _ _ _ _ _ i Hsh); lia.
Qed.

(** ** Construction establishes the invariants *)

Lemma iota_indices_lookup count (i : nat) :
  0 <= count < 2 ^ 16 ->
  iota_indices count !! i =
    if decide (Z.of_nat i <= count) then Some (Z.of_nat i) else None.
Proof.
  intros Hc. unfold iota_indices. rewrite list_lookup_fmap.
  change (2 ^ 16) with 65536 in Hc. case_decide as Hi.
  - rewrite lookup_seqZ_lt by lia. simpl. f_equal.
    apply u16_small. change (2 ^ 16) with 65536. lia.
  - rewrite lookup_seqZ_ge by lia. done.
Qed.

Lemma ROW_new_ok rowWidth fillAttribute : row_ok (ROW_new rowWidth fillAttribute).
Proof.
  assert (Hw : 0 <= u16 rowWidth < 2 ^ 16) by (apply Z.mod_pos_bound; done).
  pose proof Hw as Hw'. change (2 ^ 16) with 65536 in Hw'.
  split; simpl.
  - done.
  - unfold iota_indices. rewrite length_fmap, length_seqZ. lia.
  - intros i v. rewrite iota_indices_lookup by done.
    case_decide; [|done]. intros [= <-]. lia.
  - intros i j v w Hij. rewrite !iota_indices_lookup by done.
    repeat case_decide; try done. intros [= <-] [= <-]. lia.
  - rewrite length_replicate. lia.
  - unfold currentLength. simpl. rewrite load_lookup by lia.
    rewrite iota_indices_lookup by done. rewrite decide_True by lia. simpl. lia.
  - change (2 ^ 62) with 4611686018427387904. lia.
Qed.

Lemma C4_Replace_growth_witness :
  let s := mkSpan 0 1 0 1 0 1 in
  let r := ROW_new 3 0 in
  let chars := [letter_a; letter_b] in
  Replace_scan 0 1 r = Some s /\
  diff s chars <> 0 /\
  currentLength r + lengthDelta s chars < 2 ^ 16 /\
  exists r',
    Replace 0 1 chars r = Some r' /\
    diff s chars = usize (lengthDelta s chars) /\
    _charsCapacity r' =
      (if decide (currentLength r + lengthDelta s chars <= _charsCapacity r)
       then _charsCapacity r
       else Z.max (currentLength r + lengthDelta s chars)
                  (_charsCapacity r + _charsCapacity r / 2)) /\
    Z.of_nat (length (_chars r')) = _charsCapacity r' /\
    (forall k, 0 <= k < ch0 s -> load (_chars r') k = load (_chars r) k) /\
    (forall k, 0 <= k < currentLength r - ch1 s ->
       load (_chars r') (ch1 s + lengthDelta s chars + k)
         = load (_chars r) (ch1 s + k)) /\
    (forall i, old1 s <= i <= _indicesCount r ->
       load (_indices r') i
         = (fun v => v + lengthDelta s chars) <$> load (_indices r) i).
Proof.
  intros s r chars.
  assert (Hscan : Replace_scan 0 1 r = Some s) by (vm_compute; reflexivity).
  assert (Hdiff : diff s chars <> 0) by (vm_compute; discriminate).
  assert (Hnew : currentLength r + lengthDelta s chars < 2 ^ 16)
    by (vm_compute; reflexivity).
  assert (Hx : 0 <= 0) by lia.
  assert (Hw : 0 <= 1 < 2 ^ 63) by (split; [lia | vm_compute; reflexivity]).
  split; [exact Hscan|]. split; [exact Hdiff|]. split; [exact Hnew|].
  exact (C4_Replace_growth r 0 1 chars s (ROW_new_ok 3 0) Hx Hw Hscan Hdiff Hnew).
Defined.

Lemma row_wide_ab_reachable :
  Replace 0 2 [letter_a; letter_b] (ROW_new 3 0) = Some row_wide_ab.
Proof. vm_compute. reflexivity. Qed.

(** C4, as the specification states it, fails on the entries of [new1, old1):
    [Replace 0 1 "xyz"] on the row whose columns 0 and 1 hold the glyph
    "ab" has new1 = 1, old1 = 2 and diff = 2; the entries of columns 2 and
    3 (the sentinel) grow by 2, but the entry of column 1 goes from 0 to
    1. *)
Lemma C4_entry_at_new1_counterexample :
  exists s r',
    Replace_scan 0 1 row_wide_ab = Some s /\
    Replace 0 1 [letter_x; letter_y; letter_z] row_wide_ab = Some r' /\
    new1 s = 1 /\ old1 s = 2 /\
    diff s [letter_x; letter_y; letter_z] = 2 /\
    load (_indices row_wide_ab) (new1 s) = Some 0 /\
    load (_indices r') (new1 s) = Some 1 /\
    load (_indices r') (new1 s)
      <> (fun v => v + 2) <$> load (_indices row_wide_ab) (new1 s).
Proof.
  do 2 eexists.
  split; [vm_compute; reflexivity|].
  split; [vm_compute; reflexivity|].
  repeat split; try (vm_compute; reflexivity). vm_compute. discriminate.
Qed.

(** ** What the index rewrite stores, in general *)

(** Every rewritten column receives a column number: its own outside of
    the target range, [new0] inside. *)
Lemma Replace_reindex_writes s r r' i :
  Replace_reindex s r = Some r' ->
  0 <= old0 s <= new0 s -> new0 s <= new1 s <= old1 s ->
  old0 s <= i < old1 s ->
  load (_indices r') i = Some (if decide (new0 s <= i < new1 s) then new0 s else i).
Proof.
  intros H H0 H1 Hi. unfold Replace_reindex in H.
  case_decide as H16; [|done].
  apply bind_Some in H as (idx & Hidx & [= <-]). simpl.
  rewrite (load_write_at _ _ _ _ i Hidx) by lia.
  rewrite decide_True
    by (rewrite !length_app, !length_seqZ, length_replicate; lia).
  rewrite load_lookup by lia.
  destruct (decide (i < new0 s)) as [Hlt|Hge].
  - rewrite lookup_app_l by (rewrite length_seqZ; lia).
    rewrite lookup_seqZ_lt by lia. rewrite decide_False by lia. f_equal. lia.
  - rewrite lookup_app_r by (rewrite length_seqZ; lia). rewrite length_seqZ.
    case_decide as Hin.
    + rewrite lookup_app_l by (rewrite length_replicate; lia).
      by rewrite lookup_replicate_2 by lia.
    + rewrite lookup_app_r by (rewrite length_replicate; lia).
      rewrite length_replicate. rewrite lookup_seqZ_lt by lia. f_equal. lia.
Qed.

(** ** A source of [Current] cells only *)

Lemma WriteCells_loop_all_current final wrap fuel :
  forall l r l' r',
    Forall (fun c => TextAttrBehavior c = Current) (it l) ->
    WriteCells_loop fuel final wrap l r = Ok l' r' ->
    _attr r' = _attr r /\ colorUses l' = colorUses l.
Proof.
  induction fuel as [|fuel IH]; intros l r l' r' Hall; simpl.
  - destruct (it l); [by intros [= <- <-]|]. case_decide; [done|].
    by intros [= <- <-].
  - destruct (it l) as [|c rest] eqn:Hit; [by intros [= <- <-]|].
    case_decide; [|by intros [= <- <-]].
    destruct (body final wrap c l r) as [[l1 r1]|] eqn:Hbody; [|done].
    intros Hloop. unfold body in Hbody.
    assert (Hc : TextAttrBehavior c = Current) by (by inversion Hall).
    unfold attr_phase in Hbody. rewrite decide_False in Hbody by tauto.
    apply bind_Some in Hbody as ([l2 r2] & Htext & [= <- <-]).
    apply text_phase_frame in Htext as (_ & Hus & _ & _ & Hit2 & Hat & _).
    destruct (IH (next_column l2) r2 l' r') as [Ha Hu]; [|done|].
    + simpl. rewrite Hit in Hit2. simpl in Hit2.
      destruct Hit2 as [-> | ->]; [done | by inversion Hall].
    + simpl in Hu. split; congruence.
Qed.

(** When every cell of the source has mode [Current], the attribute store
    after WriteCells is the one before. *)
Lemma WriteCells_all_current cells index wrap limitRight r cells' r' :
  Forall (fun c => TextAttrBehavior c = Current) cells ->
  WriteCells cells index wrap limitRight r = Ok cells' r' ->
  _attr r' = _attr r.
Proof.
  intros Hall. unfold WriteCells.
  case_decide; [done|]. case_decide; [done|].
  destruct cells as [|first rest]; [done|].
  destruct (WriteCells_loop _ _ _ _ _) as [l1 r1| | | |] eqn:Hloop; try done.
  intros [= <- <-].
  apply WriteCells_loop_all_current in Hloop as [Ha Hu]; [|done].
  simpl in Hu. unfold commit. by rewrite decide_False by (rewrite Hu; tauto).
Qed.

(** * Further properties of the operations *)

(** ** The scan of Replace *)

Lemma scan_left_spec idx c n o :
  scan_left idx c n = Some o ->
  (o <= n)%nat /\
  (forall k : nat, (o <= k < n)%nat -> idx !! k = Some c) /\
  (o = 0%nat \/ (0 < o)%nat /\ exists v, idx !! (o - 1)%nat = Some v /\ v <> c).
Proof.
  induction n as [|n IH]; simpl.
  - intros [= <-]. split; [lia|]. split; [intros k Hk; lia | by left].
  - destruct (idx !! n) as [v|] eqn:Hv; [|done]. case_decide as Hd.
    + intros (Hle & Hall & Hstop)%IH. split; [lia|]. split; [|done].
      intros k Hk. destruct (decide (k = n)) as [->|Hne]; [by subst|].
      apply Hall. lia.
    + intros [= <-]. split; [lia|]. split; [intros k Hk; lia|].
      right. split; [lia|]. exists v. split; [|done].
      by replace (S n - 1)%nat with n by lia.
Qed.

Lemma scan_right_run rest c o o1 c1 (k : nat) :
  scan_right rest c o = Some (o1, c1) ->
  Z.of_nat k < o1 - o -> rest !! k = Some c.
Proof.
  revert o k. induction rest as [|v rest IH]; intros o k; simpl; [done|].
  case_decide as Hv.
  - intros Hs Hk. destruct k as [|k]; [by subst|]. simpl.
    apply (IH (o + 1)); [done | lia].
  - intros [= <- <-] Hk. lia.
Qed.

(** The columns the scan reports, without any assumption on the row. *)
Lemma Replace_scan_order x width r s :
  Replace_scan x width r = Some s ->
  new0 s = Z.min x (_indicesCount r) /\
  new1 s = Z.min (usize (new0 s + width)) (_indicesCount r) /\
  0 <= old0 s <= new0 s /\ 0 <= new1 s <= old1 s /\
  old1 s < Z.of_nat (length (_indices r)).
Proof.
  unfold Replace_scan. intros H.
  apply bind_Some in H as (c0 & Hc0 & H).
  apply bind_Some in H as (o0 & Ho0 & H).
  apply bind_Some in H as ([o1 c1] & Hsr & [= <-]). simpl.
  apply load_Some_bounds in Hc0 as [Hn0 _].
  apply scan_left_le in Ho0.
  apply scan_right_spec in Hsr as (Hle & Hlook & _).
  apply lookup_lt_Some in Hlook. rewrite length_drop in Hlook.
  assert (0 <= usize (Z.min x (_indicesCount r) + width))
    by (apply Z.mod_pos_bound; done).
  repeat split; try done; lia.
Qed.

Lemma row_a_wide_reachable :
  (r1 ← Replace 0 1 [letter_a] (ROW_new 3 0); Replace 1 2 [letter_W] r1)
  = Some row_a_wide.
Proof. vm_compute. reflexivity. Qed.

(** X1: what the scan at the head of Replace reports.  [new0] is [x]
    clamped to the column count and [new1] is [new0 + width], wrapped to
    [size_t], clamped to the column count.  [old0] is at most [new0], every
    entry of [old0, new0) equals the entry ch0 of column [new0], and the
    entry left of [old0], when there is one, differs from ch0.  [old1] is
    at least [new1] and lies in the index, every entry of [new1, old1)
    equals ch0, and the entry ch1 found at [old1] differs from ch0: [old1]
    is the first column from [new1] on whose entry is not ch0. *)
Theorem X1_scan_result x width r s :
  Replace_scan x width r = Some s ->
  new0 s = Z.min x (_indicesCount r) /\
  new1 s = Z.min (usize (new0 s + width)) (_indicesCount r) /\
  0 <= old0 s <= new0 s /\
  0 <= new1 s <= old1 s /\
  old1 s < Z.of_nat (length (_indices r)) /\
  load (_indices r) (new0 s) = Some (ch0 s) /\
  (forall i, old0 s <= i < new0 s -> load (_indices r) i = Some (ch0 s)) /\
  (old0 s = 0 \/
   exists v, load (_indices r) (old0 s - 1) = Some v /\ v <> ch0 s) /\
  (forall i, new1 s <= i < old1 s -> load (_indices r) i = Some (ch0 s)) /\
  load (_indices r) (old1 s) = Some (ch1 s) /\
  ch1 s <> ch0 s.
Proof.
  intros Hscan.
  pose proof (Replace_scan_order _ _ _ _ Hscan) as (Hn0 & Hn1 & Ho0 & Ho1 & Hin).
  split; [exact Hn0|]. split; [exact Hn1|]. split; [exact Ho0|].
  split; [exact Ho1|]. split; [exact Hin|]. clear Hn0 Hn1 Hin.
  unfold Replace_scan in Hscan.
  apply bind_Some in Hscan as (c0 & Hc0 & H).
  apply bind_Some in H as (o0 & Hl & H).
  apply bind_Some in H as ([o1 c1] & Hsr & [= <-]). simpl in *.
  pose proof (load_Some_bounds _ _ _ Hc0) as [Hn0 _].
  remember (Z.min x (_indicesCount r)) as n0 eqn:En0.
  remember (Z.min (usize (n0 + width)) (_indicesCount r)) as n1 eqn:En1.
  clear En0 En1.
  apply scan_left_spec in Hl as (Hle & Hall & Hstop).
  pose proof (scan_right_spec _ _ _ _ _ Hsr) as (Hge & Hlook & Hne).
  rewrite lookup_drop in Hlook.
  split; [done|]. split; [|split; [|split; [|split; [|done]]]].
  - intros i Hi. rewrite load_lookup by lia. apply Hall. lia.
  - destruct Hstop as [->|(Hpos & v & Hv & Hvne)]; [by left|].
    right. exists v. split; [|done]. rewrite load_lookup by lia.
    rewrite <- Hv. f_equal. lia.
  - intros i Hi. rewrite load_lookup by lia.
    pose proof (scan_right_run _ _ _ _ _ (Z.to_nat (i - n1)) Hsr ltac:(lia)) as Hrun.
    rewrite lookup_drop in Hrun. rewrite <- Hrun. f_equal. lia.
  - rewrite load_lookup by lia. rewrite <- Hlook. f_equal. lia.
Qed.

(** On the row "a", wide "W": a Replace of the one column 2, the second
    half of the glyph, is widened to the left over column 1; a Replace of
    the columns 0 and 1 is not widened to the right, because the forward
    scan compares against the entry of column [new0] = 0, so [old1] stays
    at column 2 although columns 1 and 2 hold one glyph. *)
Lemma X1_scan_result_witness :
  Replace_scan 2 1 row_a_wide = Some (mkSpan 2 3 1 3 1 2) /\
  (let s := mkSpan 2 3 1 3 1 2 in
   new0 s = Z.min 2 (_indicesCount row_a_wide) /\
   new1 s = Z.min (usize (new0 s + 1)) (_indicesCount row_a_wide) /\
   0 <= old0 s <= new0 s /\
   0 <= new1 s <= old1 s /\
   old1 s < Z.of_nat (length (_indices row_a_wide)) /\
   load (_indices row_a_wide) (new0 s) = Some (ch0 s) /\
   (forall i, old0 s <= i < new0 s -> load (_indices row_a_wide) i = Some (ch0 s)) /\
   (old0 s = 0 \/
    exists v, load (_indices row_a_wide) (old0 s - 1) = Some v /\ v <> ch0 s) /\
   (forall i, new1 s <= i < old1 s -> load (_indices row_a_wide) i = Some (ch0 s)) /\
   load (_indices row_a_wide) (old1 s) = Some (ch1 s) /\
   ch1 s <> ch0 s) /\
  Replace_scan 0 2 row_a_wide = Some (mkSpan 0 2 0 2 0 1) /\
  load (_indices row_a_wide) 1 = load (_indices row_a_wide) 2.
Proof.
  assert (Hscan : Replace_scan 2 1 row_a_wide = Some (mkSpan 2 3 1 3 1 2))
    by (vm_compute; reflexivity).
  split; [exact Hscan|].
  split; [exact (X1_scan_result 2 1 row_a_wide _ Hscan)|].
  split; vm_compute; reflexivity.
Defined.

(** X2: a start column at or beyond the column count is clamped to the
    sentinel, and when [new0 + width], wrapped to [size_t], is not below
    the column count - as for every width from 0 to 2^64 - 1 - columnCount
    - the end column is clamped to the sentinel as well, and the forward
    scan runs off the index: on a row whose index has its columnCount + 1
    entries such a Replace touches memory outside of the index, whatever
    the text.  (A larger width wraps to a column left of the sentinel, and
    the call can return.) *)
Theorem X2_Replace_at_column_count_faults x width chars r :
  0 <= _indicesCount r <= x ->
  Z.of_nat (length (_indices r)) = _indicesCount r + 1 ->
  _indicesCount r <= usize (_indicesCount r + width) ->
  Replace x width chars r = None.
Proof.
  intros Hx Hlen Hfit. unfold Replace, Replace_scan.
  rewrite Z.min_r by lia.
  assert (Hcnt : 0 <= _indicesCount r) by lia.
  rewrite Z.min_r by lia.
  rewrite load_lookup by lia.
  destruct (_indices r !! Z.to_nat (_indicesCount r)) as [c0|] eqn:Hc0; [|done].
  simpl. destruct (scan_left _ _ _); [|done]. simpl.
  rewrite (drop_S _ c0 _ Hc0). rewrite drop_ge by lia. simpl.
  rewrite decide_True by done. done.
Qed.

Lemma X2_Replace_at_column_count_faults_witness :
  (0 <= _indicesCount (ROW_new 3 0) <= 3 /\
   _indicesCount (ROW_new 3 0) <= usize (_indicesCount (ROW_new 3 0) + 1)) /\
  Replace 3 1 [letter_a] (ROW_new 3 0) = None.
Proof.
  assert (H1 : 0 <= _indicesCount (ROW_new 3 0) <= 3)
    by (vm_compute; split; discriminate).
  assert (H2 : _indicesCount (ROW_new 3 0) <= usize (_indicesCount (ROW_new 3 0) + 1))
    by (vm_compute; discriminate).
  split; [exact (conj H1 H2)|].
  apply (X2_Replace_at_column_count_faults 3 1 [letter_a] (ROW_new 3 0) H1); [|exact H2].
  vm_compute. reflexivity.
Defined.

(** ** The sizes of the two buffers *)

Lemma copy_n_length {A} (src : list A) s n dst d buf :
  copy_n src s n dst d = Some buf -> length buf = length dst.
Proof.
  unfold copy_n. intros H. apply bind_Some in H as (data & _ & Hw).
  by apply write_at_length in Hw.
Qed.

Lemma Replace_resize_sizes s chars r r1 :
  Replace_resize s chars r = Some r1 ->
  0 <= new1 s <= _indicesCount r + 1 ->
  length (_indices r1) = length (_indices r) /\
  _charsCapacity r <= _charsCapacity r1 /\
  (Z.of_nat (length (_chars r)) = _charsCapacity r ->
   Z.of_nat (length (_chars r1)) = _charsCapacity r1).
Proof.
  unfold Replace_resize. intros H Hn. case_decide as Hd.
  { injection H as <-. split; [done|]. split; [lia | done]. }
  apply bind_Some in H as (cur & _ & H).
  apply bind_Some in H as (r0 & Hr0 & H).
  apply bind_Some in H as (idx & Hsh & [= <-]). simpl.
  case_decide as Hfit.
  - apply bind_Some in Hr0 as (buf & Hbuf & [= <-]). simpl in *.
    apply copy_n_length in Hbuf.
    split; [apply (shift_indices_length _ _ _ _ _ Hsh); lia|].
    split; [lia|]. by rewrite Hbuf.
  - apply bind_Some in Hr0 as (fresh & Hfresh & Hr0).
    apply bind_Some in Hr0 as (buf1 & Hb1 & Hr0).
    apply bind_Some in Hr0 as (buf2 & Hb2 & [= <-]). simpl in *.
    apply copy_n_length in Hb1, Hb2.
    unfold allocate in Hfresh. case_decide as Ha; [|done].
    injection Hfresh as <-. rewrite length_replicate in Hb1.
    assert (0 <= usize (cur + diff s chars)) by (apply Z.mod_pos_bound; done).
    split; [apply (shift_indices_length _ _ _ _ _ Hsh); lia|].
    split; [lia|]. intros _. rewrite Hb2, Hb1. lia.
Qed.

Lemma Replace_fill_sizes s chars r r2 :
  Replace_fill s chars r = Some r2 ->
  length (_chars r2) = length (_chars r) /\
  _charsCapacity r2 = _charsCapacity r /\ _indices r2 = _indices r.
Proof.
  unfold Replace_fill, fill_n. intros H.
  apply bind_Some in H as (b1 & H1 & H). apply bind_Some in H as (b2 & H2 & H).
  apply bind_Some in H as (b3 & H3 & [= <-]). simpl.
  apply write_at_length in H1, H2, H3. split; [congruence | done].
Qed.

(** X3: a Replace that returns leaves the index with as many entries as
    it had and the column count as it was, never lowers the capacity of
    the text store, and keeps "the text buffer has capacity code units". *)
Theorem X3_Replace_buffer_sizes x width chars r r' :
  Replace x width chars r = Some r' ->
  length (_indices r') = length (_indices r) /\
  _indicesCount r' = _indicesCount r /\
  _charsCapacity r <= _charsCapacity r' /\
  (Z.of_nat (length (_chars r)) = _charsCapacity r ->
   Z.of_nat (length (_chars r')) = _charsCapacity r').
Proof.
  intros H. pose proof (Replace_same_frame _ _ _ _ _ H) as (Hcnt & _).
  apply Replace_phases in H as (s & r1 & r2 & Hs & H1 & H2 & H3).
  pose proof (Replace_scan_order _ _ _ _ Hs) as (_ & Hn1 & _ & Hord & _).
  apply Replace_resize_sizes in H1 as (Hi1 & Hc1 & Hl1); [|lia].
  apply Replace_fill_sizes in H2 as (Hl2 & Hc2 & Hi2).
  pose proof (Replace_reindex_chars _ _ _ H3) as [Hch3 Hc3].
  unfold Replace_reindex in H3. case_decide as H16; [|done].
  apply bind_Some in H3 as (idx & Hidx & [= <-]). simpl in *.
  apply write_at_length in Hidx.
  split; [congruence|]. split; [done|]. split; [lia|].
  intros Hlen. rewrite Hl2, Hc2. by apply Hl1.
Qed.

Lemma X3_Replace_buffer_sizes_witness :
  Replace 0 1 [letter_a; letter_b] (ROW_new 3 0) = Some row_ab /\
  length (_indices row_ab) = length (_indices (ROW_new 3 0)) /\
  _indicesCount row_ab = _indicesCount (ROW_new 3 0) /\
  _charsCapacity (ROW_new 3 0) <= _charsCapacity row_ab /\
  (Z.of_nat (length (_chars (ROW_new 3 0))) = _charsCapacity (ROW_new 3 0) ->
   Z.of_nat (length (_chars row_ab)) = _charsCapacity row_ab).
Proof.
  assert (H : Replace 0 1 [letter_a; letter_b] (ROW_new 3 0) = Some row_ab)
    by (vm_compute; reflexivity).
  split; [exact H|].
  exact (X3_Replace_buffer_sizes 0 1 [letter_a; letter_b] (ROW_new 3 0) row_ab H).
Defined.

(** ** The text Replace writes *)

Lemma write_at_app {A} (buf : list A) pos d1 d2 b1 b2 :
  write_at buf pos d1 = Some b1 ->
  write_at b1 (pos + Z.of_nat (length d1)) d2 = Some b2 ->
  write_at buf pos (d1 ++ d2) = Some b2.
Proof.
  intros H1 H2.
  destruct (decide (d1 = [])) as [->|Hne1].
  { simpl in *. injection H1 as <-. by rewrite Z.add_0_r in H2. }
  destruct (decide (d2 = [])) as [->|Hne2].
  { simpl in H2. injection H2 as <-. by rewrite app_nil_r. }
  pose proof (write_at_bounds _ _ _ _ H1 Hne1) as [Hp Hb1].
  pose proof (write_at_bounds _ _ _ _ H2 Hne2) as [_ Hb2].
  pose proof (write_at_length _ _ _ _ H1) as Hl1.
  destruct (write_at_ok buf pos (d1 ++ d2) Hp
              ltac:(rewrite length_app; lia)) as [b Hb].
  rewrite Hb. f_equal. apply list_eq. intros i.
  rewrite (write_at_lookup _ _ _ _ i Hb), (write_at_lookup _ _ _ _ i H2),
    (write_at_lookup _ _ _ _ i H1).
  rewrite length_app.
  repeat case_decide; try lia; try done.
  - rewrite lookup_app_r by lia. f_equal. lia.
  - by rewrite lookup_app_l by lia.
Qed.

(** X4: after a Replace that returns, the text store holds, from offset
    ch0 on, leadingSpaces spaces, then the text handed in, then
    trailingSpaces spaces. *)
Theorem X4_Replace_writes_padded_text x width chars r r' :
  Replace x width chars r = Some r' ->
  exists s,
    Replace_scan x width r = Some s /\
    0 <= leadingSpaces s /\ 0 <= trailingSpaces s /\
    read_n (_chars r') (ch0 s)
           (leadingSpaces s + Z.of_nat (length chars) + trailingSpaces s)
      = Some (replicate (Z.to_nat (leadingSpaces s)) UNICODE_SPACE ++ chars
                ++ replicate (Z.to_nat (trailingSpaces s)) UNICODE_SPACE).
Proof.
  intros (s & r1 & r2 & Hs & _ & Hfill & Hre)%Replace_phases.
  exists s. split; [done|].
  pose proof (Replace_scan_order _ _ _ _ Hs) as (_ & _ & Ho0 & Ho1 & _).
  assert (Hlead : 0 <= leadingSpaces s) by (unfold leadingSpaces; lia).
  assert (Htrail : 0 <= trailingSpaces s) by (unfold trailingSpaces; lia).
  split; [done|]. split; [done|].
  apply Replace_reindex_chars in Hre as [-> _].
  unfold Replace_fill, fill_n in Hfill.
  apply bind_Some in Hfill as (b1 & Hb1 & Hfill).
  apply bind_Some in Hfill as (b2 & Hb2 & Hfill).
  apply bind_Some in Hfill as (b3 & Hb3 & [= <-]). simpl.
  set (lead := replicate (Z.to_nat (leadingSpaces s)) UNICODE_SPACE) in *.
  set (trail := replicate (Z.to_nat (trailingSpaces s)) UNICODE_SPACE) in *.
  assert (Hll : Z.of_nat (length lead) = leadingSpaces s)
    by (subst lead; rewrite length_replicate; lia).
  assert (Hlt : Z.of_nat (length trail) = trailingSpaces s)
    by (subst trail; rewrite length_replicate; lia).
  rewrite <- Hll in Hb2.
  pose proof (write_at_app _ _ _ _ _ _ Hb1 Hb2) as H12.
  replace (ch0 s + leadingSpaces s + Z.of_nat (length chars))
    with (ch0 s + Z.of_nat (length (lead ++ chars))) in Hb3
    by (rewrite length_app; lia).
  pose proof (write_at_app _ _ _ _ _ _ H12 Hb3) as H123.
  rewrite <- app_assoc in H123.
  replace (leadingSpaces s + Z.of_nat (length chars) + trailingSpaces s)
    with (Z.of_nat (length (lead ++ chars ++ trail)))
    by (rewrite !length_app; lia).
  exact (write_at_read_back _ _ _ _ H123).
Qed.

Lemma X4_Replace_writes_padded_text_witness :
  Replace 1 1 [letter_a] row_wide
    = Some (with_text row_wide [32; letter_a; 32] 3 [0; 1; 2; 3]) /\
  exists s,
    Replace_scan 1 1 row_wide = Some s /\
    0 <= leadingSpaces s /\ 0 <= trailingSpaces s /\
    read_n [32; letter_a; 32] (ch0 s)
           (leadingSpaces s + Z.of_nat (length [letter_a]) + trailingSpaces s)
      = Some (replicate (Z.to_nat (leadingSpaces s)) UNICODE_SPACE ++ [letter_a]
                ++ replicate (Z.to_nat (trailingSpaces s)) UNICODE_SPACE).
Proof.
  assert (H : Replace 1 1 [letter_a] row_wide
              = Some (with_text row_wide [32; letter_a; 32] 3 [0; 1; 2; 3]))
    by (vm_compute; reflexivity).
  split; [exact H|].
  exact (X4_Replace_writes_padded_text 1 1 [letter_a] row_wide _ H).
Defined.

(** ** The index after Replace *)

Lemma shift_indices_load_below idx from count d idx' i :
  shift_indices idx from count d = Some idx' -> 0 <= from <= count + 1 ->
  0 <= i < from ->
  load idx' i = load idx i.
Proof.
  unfold shift_indices. case_decide as Hlen; [|done]. intros [= <-] Hfrom Hi.
  rewrite !load_lookup by lia.
  rewrite lookup_app_l by (rewrite length_take; lia).
  by rewrite lookup_take_lt by lia.
Qed.

Lemma Replace_resize_keeps_below s chars r r1 i :
  Replace_resize s chars r = Some r1 ->
  0 <= new1 s <= _indicesCount r + 1 ->
  0 <= i < new1 s ->
  load (_indices r1) i = load (_indices r) i.
Proof.
  unfold Replace_resize. intros H Hn Hi. case_decide as Hd; [by injection H as <-|].
  apply bind_Some in H as (cur & _ & H).
  apply bind_Some in H as (r0 & Hr0 & H).
  apply bind_Some in H as (idx & Hsh & [= <-]). simpl.
  assert (_indices r0 = _indices r /\ _indicesCount r0 = _indicesCount r) as [Hi0 Hc0].
  { case_decide as Hfit.
    - by apply bind_Some in Hr0 as (buf & _ & [= <-]).
    - apply bind_Some in Hr0 as (fresh & _ & Hr0).
      apply bind_Some in Hr0 as (buf1 & _ & Hr0).
      by apply bind_Some in Hr0 as (buf2 & _ & [= <-]). }
  rewrite Hi0, Hc0 in Hsh.
  apply (shift_indices_load_below _ _ _ _ _ i Hsh); lia.
Qed.

(** X5: the index a Replace leaves, entry by entry.  Below old0 nothing
    changes; a column of [old0, old1) receives a column number, its own
    outside of the target range and new0 inside of it; from old1 up to the
    sentinel an entry is kept when diff is 0 and otherwise receives diff,
    wrapped to 16 bits. *)
Theorem X5_Replace_index_entries x width chars r r' s i :
  Replace x width chars r = Some r' ->
  Replace_scan x width r = Some s ->
  new0 s <= new1 s ->
  0 <= i <= _indicesCount r ->
  load (_indices r') i =
    if decide (i < old0 s) then load (_indices r) i
    else if decide (i < old1 s)
         then Some (if decide (new0 s <= i < new1 s) then new0 s else i)
         else if decide (diff s chars = 0) then load (_indices r) i
              else (fun v => u16 (v + diff s chars)) <$> load (_indices r) i.
Proof.
  intros H Hs Hnn Hi.
  apply Replace_phases in H as (s' & r1 & r2 & Hs' & H1 & H2 & H3).
  assert (s' = s) as -> by congruence. clear Hs'.
  pose proof (Replace_scan_order _ _ _ _ Hs) as (_ & Hn1 & Ho0 & Ho1 & _).
  assert (Hn1c : new1 s <= _indicesCount r) by lia.
  apply Replace_fill_sizes in H2 as (_ & _ & Hi2).
  destruct (decide (old0 s <= i < old1 s)) as [Hin|Hout].
  { rewrite (Replace_reindex_writes _ _ _ i H3) by lia.
    rewrite (decide_False (P := i < old0 s)) by lia.
    by rewrite (decide_True (P := i < old1 s)) by lia. }
  assert (Hsame : load (_indices r') i = load (_indices r1) i).
  { unfold Replace_reindex in H3. case_decide as H16; [|done].
    apply bind_Some in H3 as (idx & Hidx & [= <-]). simpl.
    rewrite (load_write_at _ _ _ _ i Hidx) by lia.
    rewrite decide_False
      by (rewrite !length_app, !length_seqZ, length_replicate; lia).
    by rewrite Hi2. }
  rewrite Hsame. case_decide as Hlow.
  - apply (Replace_resize_keeps_below _ _ _ _ _ H1); lia.
  - rewrite (decide_False (P := i < old1 s)) by lia. case_decide as Hd.
    + unfold Replace_resize in H1. rewrite decide_True in H1 by done.
      by injection H1 as <-.
    + apply (Replace_resize_shifts_from_new1 _ _ _ _ _ H1); [done|lia|lia].
Qed.

Lemma X5_Replace_index_entries_witness :
  let s := mkSpan 0 1 0 2 0 2 in
  let chars := [letter_x; letter_y; letter_z] in
  exists r',
    Replace 0 1 chars row_wide_ab = Some r' /\
    Replace_scan 0 1 row_wide_ab = Some s /\
    load (_indices r') 3 =
      if decide (3 < old0 s) then load (_indices row_wide_ab) 3
      else if decide (3 < old1 s)
           then Some (if decide (new0 s <= 3 < new1 s) then new0 s else 3)
           else if decide (diff s chars = 0) then load (_indices row_wide_ab) 3
                else (fun v => u16 (v + diff s chars))
                       <$> load (_indices row_wide_ab) 3.
Proof.
  intros s chars.
  assert (Hs : Replace_scan 0 1 row_wide_ab = Some s) by (vm_compute; reflexivity).
  assert (Hn : new0 s <= new1 s) by (vm_compute; discriminate).
  assert (Hi : 0 <= 3 <= _indicesCount row_wide_ab)
    by (vm_compute; split; discriminate).
  eexists. split; [vm_compute; reflexivity|]. split; [exact Hs|].
  refine (X5_Replace_index_entries 0 1 chars row_wide_ab _ s 3 _ Hs Hn Hi).
  vm_compute. reflexivity.
Defined.

(** ** The constructor and Reset *)

Lemma row_broken_reachable :
  (r1 ← Replace 2 2 [letter_b] (ROW_new 5 0);
   r2 ← Replace 0 2 [letter_a] r1;
   Replace 4 1 [letter_x] r2) = Some row_broken.
Proof. vm_compute. reflexivity. Qed.

(** A row whose index is the identity satisfies the invariants as soon as
    its text buffer is large enough. *)
Lemma identity_index_ok r :
  0 <= _indicesCount r < 2 ^ 16 ->
  _indices r = iota_indices (_indicesCount r) ->
  Z.of_nat (length (_chars r)) = _charsCapacity r ->
  _indicesCount r <= _charsCapacity r ->
  _charsCapacity r < 2 ^ 62 ->
  row_ok r.
Proof.
  intros Hc Hidx Hlen Hfit Hcap.
  pose proof Hc as Hc'. change (2 ^ 16) with 65536 in Hc'.
  split; try done.
  - rewrite Hidx. unfold iota_indices. rewrite length_fmap, length_seqZ. lia.
  - intros i v. rewrite Hidx, iota_indices_lookup by done.
    case_decide; [|done]. intros [= <-]. lia.
  - intros i j v w Hij. rewrite Hidx, !iota_indices_lookup by done.
    repeat case_decide; try done. intros [= <-] [= <-]. lia.
  - unfold currentLength. rewrite load_lookup by lia.
    rewrite Hidx, iota_indices_lookup by done. rewrite decide_True by lia.
    simpl. lia.
Qed.

Lemma write_at_whole {A} (buf data : list A) :
  length data = length buf -> write_at buf 0 data = Some data.
Proof.
  intros Hlen. rewrite write_at_unfold. case_decide as Hd.
  - subst. destruct buf; [done | discriminate].
  - rewrite decide_True by lia. f_equal. simpl.
    rewrite drop_ge by lia. by rewrite app_nil_r.
Qed.

(** X6: the row the constructor builds: it satisfies the storage
    invariants, its column count is the width taken as an unsigned short,
    column c maps to offset c (the sentinel to the width), every code unit
    is a space, the attribute store holds the fill attribute over
    max(1, width) columns, and the flags are cleared. *)
Theorem X6_constructor_state rowWidth fillAttribute :
  let r := ROW_new rowWidth fillAttribute in
  row_ok r /\
  size r = u16 rowWidth /\
  _charsCapacity r = size r /\
  currentLength r = size r /\
  (forall c, 0 <= c <= size r -> load (_indices r) c = Some c) /\
  (forall k, 0 <= k < size r -> load (_chars r) k = Some UNICODE_SPACE) /\
  _attr r = replicate (Z.to_nat (Z.max 1 (size r))) fillAttribute /\
  _lineRendition r = SingleWidth /\
  _wrapForced r = false /\ _doubleBytePadded r = false.
Proof.
  intros r. assert (Hw : 0 <= u16 rowWidth < 2 ^ 16) by (apply Z.mod_pos_bound; done).
  split; [apply ROW_new_ok|]. split; [done|]. split; [done|].
  assert (Hidx : forall c, 0 <= c <= size r -> load (_indices r) c = Some c).
  { intros c Hc. rewrite load_lookup by lia. subst r. simpl in *.
    unfold size in Hc. simpl in Hc.
    rewrite iota_indices_lookup by done. rewrite decide_True by lia.
    f_equal. lia. }
  split.
  { pose proof (Hidx (size r) ltac:(unfold size, r; simpl; lia)) as Hs.
    unfold size in Hs |- *. unfold currentLength. by rewrite Hs. }
  split; [done|]. split; [|done].
  intros k Hk. rewrite load_lookup by lia. subst r. unfold size in Hk. simpl in *.
  apply lookup_replicate_2. lia.
Qed.

(** X7: Reset on a row whose buffers have the sizes the constructor
    requires (whatever they hold): it returns true, the index is the
    identity again, the first columnCount code units are spaces and the
    code units behind them are kept, the capacity is kept, the attribute
    store is one run of the given attribute over columnCount columns and
    the flags are cleared; the storage invariants hold again when the text
    buffer has capacity code units. *)
Theorem X7_Reset_restores_initial_state Attr r :
  0 <= _indicesCount r < 2 ^ 16 ->
  Z.of_nat (length (_indices r)) = _indicesCount r + 1 ->
  _indicesCount r <= Z.of_nat (length (_chars r)) ->
  exists r',
    Reset Attr r = Ok true r' /\
    _indices r' = iota_indices (_indicesCount r) /\
    (forall k, 0 <= k < _indicesCount r -> load (_chars r') k = Some UNICODE_SPACE) /\
    (forall k, _indicesCount r <= k -> load (_chars r') k = load (_chars r) k) /\
    _charsCapacity r' = _charsCapacity r /\
    _indicesCount r' = _indicesCount r /\
    _attr r' = replicate (Z.to_nat (_indicesCount r)) Attr /\
    _lineRendition r' = SingleWidth /\
    _wrapForced r' = false /\ _doubleBytePadded r' = false /\
    (Z.of_nat (length (_chars r)) = _charsCapacity r ->
     _charsCapacity r < 2 ^ 62 -> row_ok r').
Proof.
  intros Hc Hil Hcl. pose proof Hc as Hc'. change (2 ^ 16) with 65536 in Hc'.
  unfold Reset, fill_n.
  destruct (write_at_ok (_chars r) 0
              (replicate (Z.to_nat (_indicesCount r)) UNICODE_SPACE)
              ltac:(lia) ltac:(rewrite length_replicate; lia)) as [chars Hchars].
  rewrite Hchars.
  rewrite write_at_whole
    by (unfold iota_indices; rewrite length_fmap, length_seqZ; lia).
  eexists. split; [reflexivity|]. simpl.
  pose proof (write_at_length _ _ _ _ Hchars) as Hlen.
  split; [done|]. split; [|split; [|split; [done|split; [done|]]]].
  - intros k Hk. rewrite (load_write_at _ _ _ _ k Hchars) by lia.
    rewrite decide_True by (rewrite length_replicate; lia).
    rewrite load_lookup by lia. apply lookup_replicate_2. lia.
  - intros k Hk. rewrite (load_write_at _ _ _ _ k Hchars) by lia.
    by rewrite decide_False by (rewrite length_replicate; lia).
  - rewrite u16_small by done.
    split; [done|]. split; [done|]. split; [done|]. split; [done|].
    intros Hcap Hbig. apply identity_index_ok; simpl; try done; lia.
Qed.

Lemma X7_Reset_restores_initial_state_witness :
  exists r',
    Reset 7 row_broken = Ok true r' /\
    _indices r' = iota_indices (_indicesCount row_broken) /\
    (forall k, 0 <= k < _indicesCount row_broken ->
       load (_chars r') k = Some UNICODE_SPACE) /\
    (forall k, _indicesCount row_broken <= k ->
       load (_chars r') k = load (_chars row_broken) k) /\
    _charsCapacity r' = _charsCapacity row_broken /\
    _indicesCount r' = _indicesCount row_broken /\
    _attr r' = replicate (Z.to_nat (_indicesCount row_broken)) 7 /\
    _lineRendition r' = SingleWidth /\
    _wrapForced r' = false /\ _doubleBytePadded r' = false /\
    (Z.of_nat (length (_chars row_broken)) = _charsCapacity row_broken ->
     _charsCapacity row_broken < 2 ^ 62 -> row_ok r').
Proof.
  apply (X7_Reset_restores_initial_state 7 row_broken).
  - vm_compute. split; [discriminate | reflexivity].
  - vm_compute. reflexivity.
  - vm_compute. discriminate.
Defined.

(** X8: Reset of a freshly constructed row of at least one column gives
    the row the constructor builds with the new attribute.  (For width 0
    the two differ: the constructor keeps one attribute entry, Reset
    none.) *)
Theorem X8_Reset_of_constructed_row rowWidth fillAttribute Attr :
  u16 rowWidth <> 0 ->
  Reset Attr (ROW_new rowWidth fillAttribute) = Ok true (ROW_new rowWidth Attr).
Proof.
  intros Hne.
  assert (Hw : 0 <= u16 rowWidth < 2 ^ 16) by (apply Z.mod_pos_bound; done).
  change (2 ^ 16) with 65536 in Hw.
  unfold Reset, fill_n, ROW_new. simpl.
  rewrite write_at_whole by (by rewrite !length_replicate).
  rewrite write_at_whole by done.
  rewrite (u16_small (u16 rowWidth)) by (change (2 ^ 16) with 65536; lia).
  by rewrite Z.max_r by lia.
Qed.

Lemma X8_Reset_of_constructed_row_witness :
  Reset 7 (ROW_new 3 0) = Ok true (ROW_new 3 7) /\
  _attr (ROW_new 0 0) = [0] /\
  (exists r', Reset 7 (ROW_new 0 0) = Ok true r' /\ _attr r' = []).
Proof.
  split; [apply X8_Reset_of_constructed_row; vm_compute; discriminate|].
  split; [vm_compute; reflexivity|].
  eexists. split; vm_compute; reflexivity.
Defined.

(** ** One code unit into one column of a row with the identity index *)

Lemma scan_left_identity count k :
  0 <= count < 2 ^ 16 -> 0 <= k <= count ->
  scan_left (iota_indices count) k (Z.to_nat k) = Some (Z.to_nat k).
Proof.
  intros Hc Hk. destruct (Z.to_nat k) as [|n] eqn:En; [done|]. simpl.
  rewrite iota_indices_lookup by done. rewrite decide_True by lia.
  by rewrite decide_False by lia.
Qed.

(** One code unit over one column of an identity-index row. *)
Lemma Replace_one_unit_identity k ch r :
  0 <= _indicesCount r < 2 ^ 16 ->
  _indices r = iota_indices (_indicesCount r) ->
  0 <= k < _indicesCount r ->
  k < Z.of_nat (length (_chars r)) ->
  Replace k 1 [ch] r = Some (with_chars r (<[Z.to_nat k := ch]> (_chars r))).
Proof.
  intros Hc Hidx Hk Hlen. pose proof Hc as Hc'. change (2 ^ 16) with 65536 in Hc'.
  assert (Hscan : Replace_scan k 1 r = Some (mkSpan k (k + 1) k (k + 1) k (k + 1))).
  { unfold Replace_scan. rewrite Z.min_l by lia.
    rewrite usize_small by (change (2 ^ 64) with 18446744073709551616; lia).
    rewrite Z.min_l by lia. rewrite load_lookup by lia.
    rewrite Hidx. rewrite iota_indices_lookup by done.
    rewrite decide_True by lia. simpl.
    rewrite Z2Nat.id by lia.
    rewrite scan_left_identity by (done || lia). simpl.
    rewrite (drop_S _ (k + 1) (Z.to_nat (k + 1)))
      by (rewrite iota_indices_lookup by done; rewrite decide_True by lia;
          f_equal; lia).
    simpl. rewrite decide_False by lia. simpl.
    by rewrite Z2Nat.id by lia. }
  unfold Replace. rewrite Hscan.
  set (s := mkSpan k (k + 1) k (k + 1) k (k + 1)).
  assert (Hlead : leadingSpaces s = 0) by (unfold leadingSpaces; simpl; lia).
  assert (Htrail : trailingSpaces s = 0) by (unfold trailingSpaces; simpl; lia).
  assert (Hdiff : diff s [ch] = 0).
  { assert (Hins : insertedChars s [ch] = 1)
      by (unfold insertedChars; rewrite Hlead, Htrail; reflexivity).
    assert (Hrhs : newRhs s [ch] = 1 + k).
    { unfold newRhs. rewrite Hins. change (ch0 s) with k.
      apply usize_small. change (2 ^ 64) with 18446744073709551616. lia. }
    unfold diff. rewrite Hrhs. change (ch1 s) with (k + 1).
    replace (1 + k - (k + 1)) with 0 by lia. reflexivity. }
  assert (Hil : Z.of_nat (length (_indices r)) = _indicesCount r + 1).
  { rewrite Hidx. unfold iota_indices. rewrite length_fmap, length_seqZ. lia. }
  assert (Hres : Replace_resize s [ch] r = Some r).
  { unfold Replace_resize. by rewrite decide_True by done. }
  assert (Hfill : Replace_fill s [ch] r
                  = Some (with_chars r (<[Z.to_nat k := ch]> (_chars r)))).
  { unfold Replace_fill, fill_n. rewrite Hlead, Htrail.
    change (replicate (Z.to_nat 0) UNICODE_SPACE) with (@nil Z).
    change (ch0 s) with k. rewrite Z.add_0_r.
    change (write_at (_chars r) k []) with (Some (_chars r)).
    cbn [mbind option_bind].
    rewrite (write_at_unfold (_chars r) k [ch]).
    rewrite decide_False by done. rewrite decide_True by (simpl; lia).
    cbn [mbind option_bind].
    change (write_at ?b ?p []) with (Some b). cbn [mbind option_bind].
    f_equal. f_equal. rewrite insert_take_drop by lia.
    simpl. f_equal. f_equal. f_equal. lia. }
  assert (Hre : Replace_reindex s (with_chars r (<[Z.to_nat k := ch]> (_chars r)))
                = Some (with_chars r (<[Z.to_nat k := ch]> (_chars r)))).
  { unfold Replace_reindex.
    rewrite decide_True by (simpl; change (2 ^ 16) with 65536; lia).
    change (old0 s) with k. change (new0 s) with k.
    change (new1 s) with (k + 1). change (old1 s) with (k + 1).
    rewrite (Z.max_r k (k + 1)) by lia.
    rewrite !Z.sub_diag. replace (k + 1 - k) with 1 by lia.
    change (seqZ k 0 ++ replicate (Z.to_nat 1) k ++ seqZ (k + 1) 0) with [k].
    change (_indices (with_chars r _)) with (_indices r).
    rewrite (write_at_unfold (_indices r) k [k]).
    rewrite decide_False by done. rewrite decide_True by (simpl; lia).
    cbn [mbind option_bind]. f_equal.
    assert (Hsame : take (Z.to_nat k) (_indices r) ++ [k]
                      ++ drop (Z.to_nat k + length [k]) (_indices r)
                    = _indices r).
    { simpl. replace (Z.to_nat k + 1)%nat with (S (Z.to_nat k)) by lia.
      rewrite <- insert_take_drop by lia. apply list_insert_id.
      rewrite Hidx, iota_indices_lookup by done. rewrite decide_True by lia.
      f_equal. lia. }
    rewrite Hsame. reflexivity. }
  cbn [mbind option_bind]. rewrite Hres. cbn [mbind option_bind].
  rewrite Hfill. cbn [mbind option_bind]. exact Hre.
Qed.

(** X9: on a row whose index is the identity (column c at offset c),
    a Replace of one column by one code unit stores that code unit at the
    column's offset and changes nothing else: no shift, no reallocation,
    the same index. *)
Theorem X9_Replace_one_unit_in_place k ch r :
  0 <= _indicesCount r < 2 ^ 16 ->
  _indices r = iota_indices (_indicesCount r) ->
  0 <= k < _indicesCount r ->
  k < Z.of_nat (length (_chars r)) ->
  Replace k 1 [ch] r = Some (with_chars r (<[Z.to_nat k := ch]> (_chars r))).
Proof. apply Replace_one_unit_identity. Qed.

Lemma X9_Replace_one_unit_in_place_witness :
  Replace 1 1 [letter_c] (ROW_new 3 0)
    = Some (with_chars (ROW_new 3 0) (<[1%nat := letter_c]> (_chars (ROW_new 3 0)))).
Proof.
  apply (X9_Replace_one_unit_in_place 1 letter_c (ROW_new 3 0)).
  - vm_compute. split; [discriminate | reflexivity].
  - vm_compute. reflexivity.
  - vm_compute. split; [discriminate | reflexivity].
  - vm_compute. reflexivity.
Defined.

(** ** WriteCells: attributes, flags and the iterator *)


Lemma final_column_bound limitRight r index :
  0 <= index < size r -> size r <= 65535 ->
  ~ size r <= default 0 limitRight ->
  finalColumn limitRight r < 65535.
Proof.
  intros Hi Hs Hl. unfold finalColumn. destruct limitRight as [lim|]; simpl in *.
  - lia.
  - rewrite usize_small by (change (2 ^ 64) with 18446744073709551616; lia). lia.
Qed.

(** X10: when every cell of the source has mode [Current], a WriteCells
    call that returns has left the attribute store exactly as it was. *)
Theorem X10_WriteCells_current_cells_keep_attributes
    cells index wrap limitRight r cells' r' :
  Forall (fun c => TextAttrBehavior c = Current) cells ->
  WriteCells cells index wrap limitRight r = Ok cells' r' ->
  _attr r' = _attr r.
Proof. apply WriteCells_all_current. Qed.

Lemma X10_WriteCells_current_cells_keep_attributes_witness :
  let cells := [mkCell [letter_a] Single 7 Current;
                mkCell [letter_b] Single 9 Current] in
  exists r',
    WriteCells cells 0 None None (ROW_new 3 0) = Ok [] r' /\
    _attr r' = _attr (ROW_new 3 0).
Proof.
  intros cells. eexists. split; [vm_compute; reflexivity|].
  refine (X10_WriteCells_current_cells_keep_attributes cells 0 None None
            (ROW_new 3 0) [] _ _ _).
  - repeat constructor.
  - vm_compute. reflexivity.
Defined.




Lemma body_flags final wrap c l r l' r' :
  body final wrap c l r = Some (l', r') ->
  _lineRendition r' = _lineRendition r /\
  (_wrapForced r' = _wrapForced r \/
   wrap = Some (_wrapForced r') /\ currentIndex l = final
   /\ TextAttrBehavior c <> StoredOnly) /\
  (_doubleBytePadded r' = _doubleBytePadded r \/
   _doubleBytePadded r' = true /\ currentIndex l = final
   /\ DbcsAttr c = Leading /\ TextAttrBehavior c <> StoredOnly).
Proof.
  unfold body. destruct (attr_phase c l r) as [l1 r1] eqn:Hattr. intros H.
  apply bind_Some in H as ([l2 r2] & Htext & [= <- <-]).
  pose proof (attr_phase_text c l r) as Hfr.
  pose proof (attr_phase_locals c l r) as Hloc.
  rewrite Hattr in Hfr, Hloc. simpl in Hfr, Hloc.
  destruct Hfr as (_ & _ & _ & _ & Hw1 & Hp1 & Hr1). destruct Hloc as [_ Hci1].
  rewrite <- Hw1, <- Hp1, <- Hr1, <- Hci1. clear Hw1 Hp1 Hr1 Hci1 Hattr.
  unfold text_phase in Htext. case_decide as Hm.
  2:{ injection Htext as <- <-. auto. }
  unfold place in Htext. apply bind_Some in Htext as ([l3 r3] & H3 & Htext).
  assert (Hinner :
    _lineRendition r3 = _lineRendition r1 /\ _wrapForced r3 = _wrapForced r1 /\
    (_doubleBytePadded r3 = _doubleBytePadded r1 \/
     _doubleBytePadded r3 = true /\ currentIndex l1 = final /\ DbcsAttr c = Leading)).
  { unfold ClearCell in H3.
    destruct (bool_decide (currentIndex l1 = 0) && IsTrailing (DbcsAttr c)).
    - apply bind_Some in H3 as (r4 & H4 & [= <- <-]).
      apply Replace_same_frame in H4 as (_ & _ & ? & ? & ?). auto.
    - destruct (bool_decide (currentIndex l1 = final) && IsLeading (DbcsAttr c))
        eqn:Hlast.
      + apply bind_Some in H3 as (r4 & H4 & [= <- <-]).
        apply Replace_same_frame in H4 as (_ & _ & ? & ? & ?). simpl.
        apply andb_true_iff in Hlast as [Hf Hlead].
        apply bool_decide_eq_true in Hf.
        destruct (DbcsAttr c); try discriminate. auto 10.
      + apply bind_Some in H3 as (r4 & H4 & [= <- <-]).
        apply Replace_same_frame in H4 as (_ & _ & ? & ? & ?). auto. }
  destruct Hinner as (Hr & Hw & Hp).
  destruct wrap as [w|].
  - case_bool_decide as Hf; injection Htext as <- <-; simpl.
    + split; [done|]. split; [right; auto|].
      destruct Hp as [?|(? & ? & ?)]; [by left | right; auto].
    + split; [done|]. split; [by left|].
      destruct Hp as [?|(? & ? & ?)]; [by left | right; auto].
  - injection Htext as <- <-. split; [done|]. split; [by left|].
    destruct Hp as [?|(? & ? & ?)]; [by left | right; auto].
Qed.

Lemma WriteCells_loop_flags final wrap fuel :
  forall l r l' r',
    WriteCells_loop fuel final wrap l r = Ok l' r' ->
    _indicesCount r' = _indicesCount r /\
    _lineRendition r' = _lineRendition r /\
    (_wrapForced r' = _wrapForced r \/ wrap = Some (_wrapForced r')) /\
    (_doubleBytePadded r' = _doubleBytePadded r \/ _doubleBytePadded r' = true).
Proof.
  induction fuel as [|fuel IH]; intros l r l' r'; simpl.
  - destruct (it l); [intros [= <- <-]; auto|].
    case_decide; [done|]. intros [= <- <-]. auto.
  - destruct (it l) as [|c rest]; [intros [= <- <-]; auto|].
    case_decide; [|intros [= <- <-]; auto].
    destruct (body final wrap c l r) as [[l1 r1]|] eqn:Hbody; [|done].
    intros (Hn & Hr & Hw & Hp)%IH.
    pose proof (body_step _ _ _ _ _ _ _ Hbody) as (_ & _ & _ & Hn1 & _).
    apply body_flags in Hbody as (Hr1 & Hw1 & Hp1).
    split; [congruence|]. split; [congruence|]. split.
    + destruct Hw as [Hw|Hw]; [|by right].
      destruct Hw1 as [Hw1|(Hw1 & _)]; [left; congruence|].
      right. congruence.
    + destruct Hp as [Hp|Hp]; [|by right].
      destruct Hp1 as [Hp1|(Hp1 & _)]; [left; congruence | right; congruence].
Qed.

(** X12: what a WriteCells call that returns does to the line flags: the
    column count and lineRendition are kept; wrapForced is either kept
    or set to the wrap directive that was given (so it is kept when none
    was given); doubleBytePadded is either kept or set to true, it is never
    cleared. *)
Theorem X12_WriteCells_flags cells index wrap limitRight r cells' r' :
  WriteCells cells index wrap limitRight r = Ok cells' r' ->
  _indicesCount r' = _indicesCount r /\
  _lineRendition r' = _lineRendition r /\
  (_wrapForced r' = _wrapForced r \/ wrap = Some (_wrapForced r')) /\
  (wrap = None -> _wrapForced r' = _wrapForced r) /\
  (_doubleBytePadded r' = _doubleBytePadded r \/ _doubleBytePadded r' = true) /\
  (_doubleBytePadded r = true -> _doubleBytePadded r' = true).
Proof.
  unfold WriteCells. case_decide; [done|]. case_decide; [done|].
  destruct cells as [|first rest]; [done|].
  destruct (WriteCells_loop _ _ _ _ _) as [l1 r1| | | |] eqn:Hloop; try done.
  intros [= <- <-].
  apply WriteCells_loop_flags in Hloop as (Hcnt & Hr & Hw & Hp).
  assert (Hc : _indicesCount (commit l1 r1) = _indicesCount r1
               /\ _lineRendition (commit l1 r1) = _lineRendition r1
               /\ _wrapForced (commit l1 r1) = _wrapForced r1
               /\ _doubleBytePadded (commit l1 r1) = _doubleBytePadded r1).
  { unfold commit. case_decide; done. }
  destruct Hc as (-> & -> & -> & ->).
  split; [done|]. split; [done|]. split; [done|].
  split; [intros ->; by destruct Hw|]. split; [done|].
  intros Ht. destruct Hp; congruence.
Qed.

Lemma X12_WriteCells_flags_witness :
  let cells := [mkCell [letter_a] Single 7 Stored; wide_cell] in
  exists r',
    WriteCells cells 0 (Some true) None (ROW_new 2 0) = Ok [wide_cell] r' /\
    _indicesCount r' = _indicesCount (ROW_new 2 0) /\
    _lineRendition r' = _lineRendition (ROW_new 2 0) /\
    (_wrapForced r' = _wrapForced (ROW_new 2 0) \/ Some true = Some (_wrapForced r')) /\
    (Some true = None -> _wrapForced r' = _wrapForced (ROW_new 2 0)) /\
    (_doubleBytePadded r' = _doubleBytePadded (ROW_new 2 0)
     \/ _doubleBytePadded r' = true) /\
    (_doubleBytePadded (ROW_new 2 0) = true -> _doubleBytePadded r' = true).
Proof.
  intros cells. eexists.
  refine ((fun H => conj H (X12_WriteCells_flags cells 0 (Some true) None
                              (ROW_new 2 0) [wide_cell] _ H)) _).
  vm_compute. reflexivity.
Defined.

Lemma WriteCells_loop_consumes final wrap :
  final < 65535 ->
  forall fuel l r l' r',
    0 <= currentIndex l ->
    WriteCells_loop fuel final wrap l r = Ok l' r' ->
    currentIndex l <= currentIndex l' <= Z.max (currentIndex l) (final + 1) /\
    exists consumed,
      it l = consumed ++ it l' /\
      Z.of_nat (length consumed) <= currentIndex l' - currentIndex l.
Proof.
  intros Hfinal. induction fuel as [|fuel IH]; intros l r l' r' Hci; simpl.
  - destruct (it l) eqn:Hit.
    + intros [= <- <-]. split; [lia|]. exists []. rewrite Hit. simpl. split; [done|lia].
    + case_decide; [done|]. intros [= <- <-]. split; [lia|].
      exists []. simpl. split; [done|lia].
  - destruct (it l) as [|c rest] eqn:Hit.
    { intros [= <- <-]. split; [lia|]. exists []. rewrite Hit. simpl. split; [done|lia]. }
    case_decide as Hle.
    2:{ intros [= <- <-]. split; [lia|]. exists []. simpl. split; [done|lia]. }
    destruct (body final wrap c l r) as [[l1 r1]|] eqn:Hbody; [|done].
    apply body_step in Hbody as (Hci1 & Hit1 & _).
    rewrite u16_small in Hci1 by (change (2 ^ 16) with 65536; lia).
    intros Hloop. apply IH in Hloop as (Hrange & consumed & Hcons & Hlen); [|lia].
    split; [lia|]. rewrite Hit in Hit1. simpl in Hit1.
    destruct Hit1 as [Heq|Heq]; rewrite Heq in Hcons.
    + exists consumed. split; [done|lia].
    + exists (c :: consumed). split; [by rewrite Hcons|]. simpl. lia.
Qed.

(** X13: a WriteCells call that returns hands back a remainder of the
    source, and what it consumed is at most one cell per writable column
    from [index] up to the last writable column. *)
Theorem X13_WriteCells_consumes_one_cell_per_column
    cells index wrap limitRight r cells' r' :
  0 <= index -> size r <= 65535 ->
  WriteCells cells index wrap limitRight r = Ok cells' r' ->
  exists consumed,
    cells = consumed ++ cells' /\
    Z.of_nat (length consumed)
      <= Z.max 0 (finalColumn limitRight r + 1 - index).
Proof.
  intros Hindex Hsize. unfold WriteCells.
  case_decide as Hi; [done|]. case_decide as Hl; [done|].
  destruct cells as [|first rest]; [done|].
  pose proof (final_column_bound limitRight r index ltac:(lia) Hsize Hl) as Hfinal.
  rewrite u16_small by (change (2 ^ 16) with 65536; lia).
  destruct (WriteCells_loop _ _ _ _ _) as [l1 r1| | | |] eqn:Hloop; try done.
  intros [= <- <-].
  apply (WriteCells_loop_consumes _ _ Hfinal) in Hloop
    as (Hrange & consumed & Hcons & Hlen); [|simpl; lia].
  simpl in *. exists consumed. split; [done|]. lia.
Qed.

Lemma X13_WriteCells_consumes_one_cell_per_column_witness :
  let cells := [mkCell [letter_a] Single 7 Stored;
                mkCell [letter_b] Single 7 Stored;
                mkCell [letter_c] Single 7 Stored] in
  let r' := with_attr (with_chars (ROW_new 3 0) [32; letter_a; letter_b]) [0; 7; 7] in
  WriteCells cells 1 None None (ROW_new 3 0)
    = Ok [mkCell [letter_c] Single 7 Stored] r' /\
  exists consumed,
    cells = consumed ++ [mkCell [letter_c] Single 7 Stored] /\
    Z.of_nat (length consumed)
      <= Z.max 0 (finalColumn None (ROW_new 3 0) + 1 - 1).
Proof.
  intros cells r'.
  assert (Hs : size (ROW_new 3 0) <= 65535) by (vm_compute; discriminate).
  assert (Hi : 0 <= 1) by lia.
  assert (H : WriteCells cells 1 None None (ROW_new 3 0)
              = Ok [mkCell [letter_c] Single 7 Stored] r')
    by (vm_compute; reflexivity).
  split; [exact H|].
  exact (X13_WriteCells_consumes_one_cell_per_column cells 1 None None
           (ROW_new 3 0) _ r' Hi Hs H).
Defined.

(** ** Rows with the identity index: clearing, repeating, reordering *)

(** X14: on a row whose index is the identity, ClearColumn of a column in
    range returns, puts one space at that column's offset and leaves
    every other field of the row as it was. *)
Theorem X14_ClearColumn_on_identity_row column r :
  0 <= _indicesCount r < 2 ^ 16 ->
  _indices r = iota_indices (_indicesCount r) ->
  0 <= column < _indicesCount r ->
  column < Z.of_nat (length (_chars r)) ->
  ClearColumn column r
    = Ok tt (with_chars r (<[Z.to_nat column := UNICODE_SPACE]> (_chars r))).
Proof.
  intros Hc Hidx Hk Hlen. unfold ClearColumn, size, ClearCell.
  rewrite decide_False by lia.
  by rewrite Replace_one_unit_identity.
Qed.

(** Column 1 of the row "abc" held "b"; after the call the row reads
    "a c". *)
Lemma X14_ClearColumn_on_identity_row_witness :
  load (_chars row_abc) 1 = Some letter_b /\
  ClearColumn 1 row_abc
    = Ok tt (with_chars row_abc (<[1%nat := UNICODE_SPACE]> (_chars row_abc))) /\
  <[1%nat := UNICODE_SPACE]> (_chars row_abc) = [letter_a; UNICODE_SPACE; letter_c].
Proof.
  split; [vm_compute; reflexivity|]. split; [|vm_compute; reflexivity].
  apply (X14_ClearColumn_on_identity_row 1 row_abc).
  - vm_compute. split; [discriminate | reflexivity].
  - vm_compute. reflexivity.
  - vm_compute. split; [discriminate | reflexivity].
  - vm_compute. reflexivity.
Defined.

(** X15: on a row whose index is the identity, Replace of one column by
    one code unit is idempotent, and two such Replaces at different
    columns give the same row in either order. *)
Theorem X15_Replace_one_unit_composes j k a b r :
  0 <= _indicesCount r < 2 ^ 16 ->
  _indices r = iota_indices (_indicesCount r) ->
  _indicesCount r <= Z.of_nat (length (_chars r)) ->
  0 <= j < _indicesCount r -> 0 <= k < _indicesCount r ->
  (r1 ← Replace j 1 [a] r; Replace j 1 [a] r1) = Replace j 1 [a] r /\
  (j <> k ->
   (r1 ← Replace j 1 [a] r; Replace k 1 [b] r1)
     = (r1 ← Replace k 1 [b] r; Replace j 1 [a] r1)).
Proof.
  intros Hc Hidx Hlen Hj Hk.
  assert (Hstep : forall i ch r0,
    _indicesCount r0 = _indicesCount r -> _indices r0 = _indices r ->
    length (_chars r0) = length (_chars r) -> 0 <= i < _indicesCount r ->
    Replace i 1 [ch] r0 = Some (with_chars r0 (<[Z.to_nat i := ch]> (_chars r0)))).
  { intros i ch r0 Hn Hi Hl Hin. apply Replace_one_unit_identity.
    - by rewrite Hn.
    - by rewrite Hn, Hi.
    - by rewrite Hn.
    - rewrite Hl. lia. }
  split.
  - rewrite (Hstep j a r) by done. simpl.
    rewrite Hstep by (simpl; try done; by rewrite length_insert).
    simpl. by rewrite list_insert_insert_eq.
  - intros Hne.
    rewrite (Hstep j a r), (Hstep k b r) by done. simpl.
    rewrite !Hstep by (simpl; try done; by rewrite length_insert).
    simpl. f_equal. unfold with_chars, with_text. simpl. f_equal.
    apply list_insert_insert_ne. lia.
Qed.

Lemma X15_Replace_one_unit_composes_witness :
  (r1 ← Replace 0 1 [letter_a] (ROW_new 3 0); Replace 0 1 [letter_a] r1)
    = Replace 0 1 [letter_a] (ROW_new 3 0) /\
  (0 <> 2 ->
   (r1 ← Replace 0 1 [letter_a] (ROW_new 3 0); Replace 2 1 [letter_b] r1)
     = (r1 ← Replace 2 1 [letter_b] (ROW_new 3 0); Replace 0 1 [letter_a] r1)).
Proof.
  apply (X15_Replace_one_unit_composes 0 2 letter_a letter_b (ROW_new 3 0)).
  - vm_compute. split; [discriminate | reflexivity].
  - vm_compute. reflexivity.
  - vm_compute. discriminate.
  - vm_compute. split; [discriminate | reflexivity].
  - vm_compute. split; [discriminate | reflexivity].
Defined.

(** ** WriteCells with narrow one-unit cells on an identity-index row *)

Lemma body_narrow final wrap c l r :
  0 <= _indicesCount r < 2 ^ 16 ->
  _indices r = iota_indices (_indicesCount r) ->
  _indicesCount r <= Z.of_nat (length (_chars r)) ->
  0 <= currentIndex l < _indicesCount r ->
  DbcsAttr c = Single -> TextAttrBehavior c <> StoredOnly ->
  length (Chars c) = 1%nat ->
  exists ch l' r',
    Chars c = [ch] /\
    body final wrap c l r = Some (l', r') /\
    _chars r' = <[Z.to_nat (currentIndex l) := ch]> (_chars r) /\
    _indices r' = _indices r /\ _indicesCount r' = _indicesCount r /\
    it l' = tail (it l) /\ currentIndex l' = u16 (currentIndex l + 1).
Proof.
  intros Hc Hidx Hlen Hci Hsingle Hmode Hone.
  destruct (Chars c) as [|ch [|? ?]] eqn:Hchars; try discriminate.
  exists ch. unfold body.
  destruct (attr_phase c l r) as [l1 r1] eqn:Hattr.
  pose proof (attr_phase_text c l r) as Hfr.
  pose proof (attr_phase_locals c l r) as Hloc.
  rewrite Hattr in Hfr, Hloc. simpl in Hfr, Hloc.
  destruct Hfr as (Hch1 & _ & Hi1 & Hn1 & _). destruct Hloc as [Hit1 Hci1].
  assert (Hrep : Replace (currentIndex l1) 1 [ch] r1
                 = Some (with_chars r1 (<[Z.to_nat (currentIndex l1) := ch]> (_chars r1)))).
  { apply Replace_one_unit_identity; rewrite ?Hn1, ?Hi1, ?Hch1, ?Hci1; try done. lia. }
  unfold text_phase. rewrite decide_True by done.
  unfold place. rewrite Hsingle, Hchars. simpl.
  rewrite !andb_false_r. rewrite Hrep. simpl.
  destruct wrap as [w|]; [case_bool_decide|]; simpl;
    eexists _, _; (split; [reflexivity|]); (split; [reflexivity|]); simpl;
    rewrite ?Hch1, ?Hci1, ?Hit1; auto.
Qed.

Local Ltac no_turn :=
  split; [done|]; split; [done|]; split; [simpl; lia|]; split; [auto with lia|];
  split; [done|]; split; [done|]; split; [done|];
  split; [intros ? ? ?; done | intros ? ?; done].

Lemma WriteCells_loop_narrow final wrap fuel :
  forall l r,
    0 <= _indicesCount r < 2 ^ 16 ->
    _indices r = iota_indices (_indicesCount r) ->
    _indicesCount r <= Z.of_nat (length (_chars r)) ->
    final < _indicesCount r ->
    0 <= currentIndex l ->
    Forall (fun c => DbcsAttr c = Single /\ TextAttrBehavior c <> StoredOnly
                     /\ length (Chars c) = 1%nat) (it l) ->
    final + 1 - currentIndex l <= Z.of_nat fuel ->
    exists l' r' consumed,
      WriteCells_loop fuel final wrap l r = Ok l' r' /\
      it l = consumed ++ it l' /\
      currentIndex l' = currentIndex l + Z.of_nat (length consumed) /\
      (it l' = [] \/ final < currentIndex l') /\
      _indices r' = _indices r /\ _indicesCount r' = _indicesCount r /\
      length (_chars r') = length (_chars r) /\
      (forall (j : nat) c, consumed !! j = Some c ->
         _chars r' !! (Z.to_nat (currentIndex l) + j)%nat = head (Chars c)) /\
      (forall i : nat,
         ~ (currentIndex l <= Z.of_nat i
            < currentIndex l + Z.of_nat (length consumed)) ->
         _chars r' !! i = _chars r !! i).
Proof.
  induction fuel as [|fuel IH]; intros l r Hc Hidx Hlen Hfinal Hci Hall Hfuel.
  - exists l, r, []. simpl. destruct (it l) eqn:Hit.
    + no_turn.
    + case_decide; [lia|]. no_turn.
  - simpl. destruct (it l) as [|c rest] eqn:Hit.
    { exists l, r, []. rewrite Hit. no_turn. }
    case_decide as Hle.
    2:{ exists l, r, []. rewrite Hit. no_turn. }
    change (2 ^ 16) with 65536 in Hc.
    assert (Hcell : DbcsAttr c = Single /\ TextAttrBehavior c <> StoredOnly
                    /\ length (Chars c) = 1%nat) by (by inversion Hall).
    destruct Hcell as (Hs & Hm & Ho).
    assert (Hc16 : 0 <= _indicesCount r < 2 ^ 16)
      by (change (2 ^ 16) with 65536; lia).
    assert (Hcol : 0 <= currentIndex l < _indicesCount r) by lia.
    destruct (body_narrow final wrap c l r Hc16 Hidx Hlen Hcol Hs Hm Ho) as
      (ch & l1 & r1 & Hchars & Hbody & Hch1 & Hi1 & Hn1 & Hit1 & Hci1).
    rewrite Hbody.
    rewrite u16_small in Hci1 by (change (2 ^ 16) with 65536; lia).
    rewrite Hit in Hit1. simpl in Hit1.
    destruct (IH l1 r1) as
      (l' & r' & consumed & Hloop & Hcons & Hcl & Hex & Hi' & Hn' & Hl' & Htxt & Hout).
    { rewrite Hn1. change (2 ^ 16) with 65536. lia. }
    { by rewrite Hn1, Hi1. }
    { rewrite Hn1, Hch1, length_insert. lia. }
    { by rewrite Hn1. }
    { lia. }
    { rewrite Hit1. by inversion Hall. }
    { lia. }
    exists l', r', (c :: consumed). rewrite Hloop.
    split; [done|]. split; [simpl; by rewrite <- Hcons, Hit1|].
    split; [simpl; lia|]. split; [done|]. split; [congruence|].
    split; [congruence|]. split; [by rewrite Hl', Hch1, length_insert|].
    split.
    + intros j c0 Hj. destruct j as [|j]; simpl in Hj.
      * injection Hj as <-. rewrite Nat.add_0_r, Hout by lia.
        rewrite Hch1, Hchars. simpl. apply list_lookup_insert_eq. lia.
      * replace (Z.to_nat (currentIndex l) + S j)%nat
          with (Z.to_nat (currentIndex l1) + j)%nat by lia.
        by apply Htxt.
    + intros i Hi. simpl in Hi. rewrite Hout by lia.
      rewrite Hch1. apply list_lookup_insert_ne. lia.
Qed.

(** X16: narrow cells of one code unit each (mode [Stored] or [Current])
    written into a row whose index is the identity: WriteCells returns -
    no fault, no failure - with the remainder of the source; it stops when
    the source is exhausted or the last writable column has been written;
    the index is unchanged; column index + j holds the code unit of the
    j-th consumed cell, and every code unit outside of the written columns
    is the one the row had. *)
Theorem X16_WriteCells_narrow_cells cells index wrap limitRight r :
  cells <> [] ->
  0 <= _indicesCount r < 2 ^ 16 ->
  _indices r = iota_indices (_indicesCount r) ->
  _indicesCount r <= Z.of_nat (length (_chars r)) ->
  0 <= index < _indicesCount r ->
  (forall lim, limitRight = Some lim -> 0 <= lim < _indicesCount r) ->
  Forall (fun c => DbcsAttr c = Single /\ TextAttrBehavior c <> StoredOnly
                   /\ length (Chars c) = 1%nat) cells ->
  exists cells' r' consumed,
    WriteCells cells index wrap limitRight r = Ok cells' r' /\
    cells = consumed ++ cells' /\
    (cells' = []
     \/ finalColumn limitRight r < index + Z.of_nat (length consumed)) /\
    _indices r' = _indices r /\
    (forall (j : nat) c, consumed !! j = Some c ->
       load (_chars r') (index + Z.of_nat j) = head (Chars c)) /\
    (forall i, 0 <= i ->
       ~ (index <= i < index + Z.of_nat (length consumed)) ->
       load (_chars r') i = load (_chars r) i).
Proof.
  intros Hne Hc Hidx Hlen Hindex Hlim Hall.
  pose proof Hc as Hc'. change (2 ^ 16) with 65536 in Hc'.
  unfold WriteCells, size. rewrite decide_False by lia.
  assert (Hfinal : finalColumn limitRight r < _indicesCount r).
  { unfold finalColumn, size. destruct limitRight as [lim|]; simpl.
    - destruct (Hlim lim eq_refl). lia.
    - rewrite usize_small by (change (2 ^ 64) with 18446744073709551616; lia). lia. }
  rewrite decide_False
    by (destruct limitRight as [lim|]; simpl; [destruct (Hlim lim eq_refl)|]; lia).
  destruct cells as [|first rest]; [done|].
  rewrite u16_small by (change (2 ^ 16) with 65536; lia).
  destruct (WriteCells_loop_narrow (finalColumn limitRight r) wrap
              (Z.to_nat (_indicesCount r))
              (mkLocals (first :: rest) (TextAttr first) 0 index index) r)
    as (l' & r' & consumed & Hloop & Hcons & Hcl & Hex & Hi' & Hn' & Hl' & Htxt & Hout);
    simpl; try done; try lia.
  rewrite Hloop. simpl in *.
  assert (Hcommit : _chars (commit l' r') = _chars r'
                    /\ _indices (commit l' r') = _indices r').
  { unfold commit. case_decide; done. }
  destruct Hcommit as [Hcc Hci].
  exists (it l'), (commit l' r'), consumed.
  split; [done|]. split; [done|]. split; [destruct Hex; [by left | right; lia]|].
  split; [congruence|]. rewrite Hcc. split.
  - intros j c Hj. rewrite load_lookup by lia.
    rewrite <- (Htxt j c Hj). f_equal. lia.
  - intros i Hi Hout'. rewrite !load_lookup by lia. apply Hout. lia.
Qed.

Lemma X16_WriteCells_narrow_cells_witness :
  let cells := [mkCell [letter_a] Single 7 Stored;
                mkCell [letter_b] Single 9 Current] in
  exists cells' r' consumed,
    WriteCells cells 1 (Some true) None (ROW_new 3 0) = Ok cells' r' /\
    cells = consumed ++ cells' /\
    (cells' = []
     \/ finalColumn None (ROW_new 3 0) < 1 + Z.of_nat (length consumed)) /\
    _indices r' = _indices (ROW_new 3 0) /\
    (forall (j : nat) c, consumed !! j = Some c ->
       load (_chars r') (1 + Z.of_nat j) = head (Chars c)) /\
    (forall i, 0 <= i ->
       ~ (1 <= i < 1 + Z.of_nat (length consumed)) ->
       load (_chars r') i = load (_chars (ROW_new 3 0)) i).
Proof.
  intros cells.
  apply (X16_WriteCells_narrow_cells cells 1 (Some true) None (ROW_new 3 0)).
  - discriminate.
  - vm_compute. split; [discriminate | reflexivity].
  - vm_compute. reflexivity.
  - vm_compute. discriminate.
  - vm_compute. split; [discriminate | reflexivity].
  - intros lim Hlim. discriminate Hlim.
  - repeat constructor; discriminate.
Defined.

(** ** A trailing cell at column 0 *)

(** X17: when the loop stands on column 0 with a trailing cell whose mode
    is not [StoredOnly], that turn clears column 0 through ClearCell -
    which, when it returns, has put a space at the offset
    ch0 + leadingSpaces of its Replace - keeps the iterator on the cell
    for the next column, leaves doubleBytePadded as it was, and moves on to
    column 1. *)
Theorem X17_trailing_cell_at_column_zero final wrap c l r l1 r1 :
  currentIndex l = 0 ->
  DbcsAttr c = Trailing ->
  TextAttrBehavior c <> StoredOnly ->
  attr_phase c l r = (l1, r1) ->
  (ClearCell 0 r1 = None -> body final wrap c l r = None) /\
  (forall r2, ClearCell 0 r1 = Some r2 ->
     exists l' r',
       body final wrap c l r = Some (l', r') /\
       it l' = it l /\
       currentIndex l' = 1 /\
       _doubleBytePadded r' = _doubleBytePadded r /\
       _chars r' = _chars r2 /\ _indices r' = _indices r2 /\
       exists s,
         Replace_scan 0 1 r = Some s /\
         read_n (_chars r') (ch0 s + leadingSpaces s) 1 = Some [UNICODE_SPACE]).
Proof.
  intros Hci Htrail Hmode Hattr.
  pose proof (attr_phase_locals c l r) as Hloc.
  pose proof (attr_phase_text c l r) as Hfr.
  rewrite Hattr in Hloc, Hfr. simpl in Hloc, Hfr.
  destruct Hloc as [Hit1 Hci1].
  destruct Hfr as (_ & _ & Hidx & Hcnt & _ & Hpad & _).
  assert (Hbody : body final wrap c l r =
                  r' ← ClearCell 0 r1;
                  Some (next_column l1,
                        match wrap with
                        | Some w => if bool_decide (0 = final)
                                    then SetWrapForced w r' else r'
                        | None => r'
                        end)).
  { unfold body. rewrite Hattr. unfold text_phase. rewrite decide_True by done.
    unfold place. rewrite Htrail, Hci1, Hci. simpl.
    destruct (ClearCell 0 r1); simpl; [|done].
    destruct wrap as [w|]; [case_bool_decide|]; done. }
  rewrite Hbody. split; [by intros ->|].
  intros r2 Hclear. rewrite Hclear. simpl. eexists _, _.
  split; [reflexivity|]. simpl. rewrite Hit1, Hci1, Hci.
  split; [done|]. split; [done|].
  pose proof (Replace_same_frame _ _ _ _ _ Hclear) as (_ & _ & _ & _ & Hp2).
  assert (Hsame : forall r',
            r' = match wrap with
                 | Some w => if bool_decide (0 = final) then SetWrapForced w r2 else r2
                 | None => r2
                 end ->
            _doubleBytePadded r' = _doubleBytePadded r2 /\
            _chars r' = _chars r2 /\ _indices r' = _indices r2).
  { intros r' ->. destruct wrap as [w|]; [case_bool_decide|]; done. }
  destruct (Hsame _ eq_refl) as (Hp' & Hc' & Hi').
  split; [congruence|]. split; [done|]. split; [done|].
  destruct (Replace_stores_text _ _ _ _ _ Hclear) as (s & Hs & Hread).
  exists s. split.
  - rewrite <- Hs. symmetry. by apply Replace_scan_indices.
  - rewrite Hc'. exact Hread.
Qed.

Lemma X17_trailing_cell_at_column_zero_witness :
  let c := mkCell [20320] Trailing 7 Stored in
  let l := mkLocals [c] 7 0 0 0 in
  let l1 := mkLocals [c] 7 1 0 0 in
  attr_phase c l row_wide = (l1, row_wide) /\
  ClearCell 0 row_wide
    = Some (with_text row_wide [32; 32; 32] 3 [0; 1; 2; 3]) /\
  exists l' r',
    body 2 None c l row_wide = Some (l', r') /\
    it l' = it l /\
    currentIndex l' = 1 /\
    _doubleBytePadded r' = _doubleBytePadded row_wide /\
    _chars r' = [32; 32; 32] /\ _indices r' = [0; 1; 2; 3] /\
    exists s,
      Replace_scan 0 1 row_wide = Some s /\
      read_n (_chars r') (ch0 s + leadingSpaces s) 1 = Some [UNICODE_SPACE].
Proof.
  intros c l l1.
  assert (Hattr : attr_phase c l row_wide = (l1, row_wide))
    by (vm_compute; reflexivity).
  assert (Hclear : ClearCell 0 row_wide
                   = Some (with_text row_wide [32; 32; 32] 3 [0; 1; 2; 3]))
    by (vm_compute; reflexivity).
  assert (Hmode : TextAttrBehavior c <> StoredOnly) by discriminate.
  split; [exact Hattr|]. split; [exact Hclear|].
  exact (proj2 (X17_trailing_cell_at_column_zero 2 None c l row_wide l1 row_wide
                  eq_refl eq_refl Hmode Hattr) _ Hclear).
Defined.

(** ** The index rewrite when the width wraps *)

(** X18: when [new0 + width] has wrapped [size_t] so that [new1] lies left
    of [new0], the second loop of the index rewrite does not run and the
    third goes on from column [new0]: every column from [old0] up to the
    larger of [new0] and [old1] receives its own column number, and every
    other entry of the index is kept. *)
Theorem X18_reindex_when_width_wraps s r r' i :
  Replace_reindex s r = Some r' ->
  0 <= old0 s <= new0 s -> new1 s < new0 s -> 0 <= i ->
  load (_indices r') i =
    if decide (old0 s <= i < Z.max (new0 s) (old1 s)) then Some i
    else load (_indices r) i.
Proof.
  intros H H0 H1 Hi. unfold Replace_reindex in H.
  case_decide as H16; [|done].
  apply bind_Some in H as (idx & Hidx & [= <-]). simpl.
  rewrite (Z.max_l (new0 s) (new1 s)) in Hidx by lia.
  replace (Z.to_nat (new1 s - new0 s)) with 0%nat in Hidx by lia.
  simpl in Hidx.
  rewrite (load_write_at _ _ _ _ i Hidx) by lia.
  rewrite length_app, !length_seqZ.
  destruct (decide (old0 s <= i < Z.max (new0 s) (old1 s))) as [Hin|Hout].
  - rewrite decide_True by lia. rewrite load_lookup by lia.
    destruct (decide (i < new0 s)) as [Hlt|Hge].
    + rewrite lookup_app_l by (rewrite length_seqZ; lia).
      rewrite lookup_seqZ_lt by lia. f_equal. lia.
    + rewrite lookup_app_r by (rewrite length_seqZ; lia). rewrite length_seqZ.
      rewrite lookup_seqZ_lt by lia. f_equal. lia.
  - by rewrite decide_False by lia.
Qed.

(** [Replace 2 (2^64 - 1) "x"] on the row "a", wide "W": [new0] is 2 and
    [new1] wraps to 1; the glyph of columns 1 and 2 is re-rendered, and
    columns 1 and 2 receive the entries 1 and 2. *)
Lemma X18_reindex_when_width_wraps_witness :
  Replace_scan 2 (2 ^ 64 - 1) row_a_wide = Some (mkSpan 2 1 1 3 1 2) /\
  Replace_reindex (mkSpan 2 1 1 3 1 2) row_a_wide
    = Some (with_indices row_a_wide [0; 1; 2; 2]) /\
  load [0; 1; 2; 2] 2 =
    (if decide (1 <= 2 < Z.max 2 3) then Some 2
     else load (_indices row_a_wide) 2) /\
  Replace 2 (2 ^ 64 - 1) [letter_x] row_a_wide
    = Some (with_text row_a_wide [letter_a; 32; letter_x; 32; 32] 5 [0; 1; 2; 5]).
Proof.
  assert (H : Replace_reindex (mkSpan 2 1 1 3 1 2) row_a_wide
              = Some (with_indices row_a_wide [0; 1; 2; 2]))
    by (vm_compute; reflexivity).
  split; [vm_compute; reflexivity|]. split; [exact H|].
  split; [|vm_compute; reflexivity].
  apply (X18_reindex_when_width_wraps (mkSpan 2 1 1 3 1 2) row_a_wide
           (with_indices row_a_wide [0; 1; 2; 2]) 2 H); simpl; lia.
Defined.
